(** * The brewery pipeline (bronze, silver, gold, quality gate)

    A shallow embedding of the four stages of the pipeline:

    - [src/bronze/ingest_api.py]: paging through the API and landing the raw
      snapshot, as interaction trees over the events the code performs;
    - [src/silver/transform.py]: [clean_and_transform], over a model of the
      pandas frame built from a list of dicts;
    - [src/gold/aggregate.py]: [aggregate_breweries], the grouped count;
    - [dags/brewery_pipeline.py]: [run_quality_check].

    Logging is not modelled: it changes neither a result nor the store. *)

From ITree Require Import ITree ITreeFacts Events.State Events.StateFacts.
From Stdlib Require Import List String Ascii ZArith Lia Bool Arith.
From Stdlib Require Import Permutation Sorted OrderedTypeEx DecimalString.
Import ListNotations.
Local Open Scope string_scope.
Local Open Scope list_scope.

(* ===================================================================== *)
(** * Part I: the model *)
(* ===================================================================== *)

(** ** Exceptions and results *)

(** The failures of [requests.get] followed by [raise_for_status]. *)
Inductive request_failure : Type :=
| HTTPError
| ConnectionError
| Timeout.

(** The Python exceptions the pipeline raises or lets through.  A
    [KeyError] of pandas carries the labels it did not find.  The
    [IndexError] is the one numpy raises on a boolean mask of the wrong
    length; its message, which is not the same in all versions of numpy,
    is not kept. *)
Inductive exn : Type :=
| ValueError (msg : string)
| KeyError (labels : list string)
| TypeError (msg : string)
| IndexError
| FileNotFoundError (msg : string)
| RequestException (why : request_failure).

(** A call either returns or raises. *)
Inductive result (A : Type) : Type :=
| Ok (a : A)
| Raise (e : exn).

Arguments Ok {A} a.
Arguments Raise {A} e.

Definition raises {A : Type} (r : result A) : bool :=
  match r with
  | Ok _ => false
  | Raise _ => true
  end.

(** [needle in haystack] on Python strings. *)
Fixpoint contains (needle haystack : string) : bool :=
  String.prefix needle haystack
  || match haystack with
     | EmptyString => false
     | String _ rest => contains needle rest
     end.

(** ** What the model takes from Python and pandas

    [str.lower] and [str.strip] act on Unicode text, and [pd.to_numeric]
    reads a decimal or exponent notation into a double: the model is
    parametric in the three.  [str_to_float s] is [None] when [s] is not the
    text of a number, or is the text of NaN. *)
Class Runtime : Type := {
  number : Type;
  str_lower : string -> string;
  str_strip : string -> string;
  str_to_float : string -> option number
}.

Definition mem (x : string) (l : list string) : bool :=
  existsb (String.eqb x) l.

Definition count (x : string) (l : list string) : nat :=
  List.length (filter (String.eqb x) l).

Definition notnull (o : option string) : bool :=
  match o with
  | Some _ => true
  | None => false
  end.

(* --------------------------------------------------------------------- *)
(** ** Silver: frames and [clean_and_transform] *)
(* --------------------------------------------------------------------- *)

Section Silver.

Context {rt : Runtime}.

(** A cell of a frame.  [VNull] stands for both [None] and NaN, which
    pandas treats alike ([isna]); a [VNum] is a number that is not NaN. *)
Inductive value : Type :=
| VNull
| VStr (s : string)
| VNum (x : number).

Definition isna (v : value) : bool :=
  match v with
  | VNull => true
  | _ => false
  end.

(** A raw record: a dict from field names to values, in insertion order.
    The records are those the API sends and the tests of the repository
    use: every value is a JSON string or null ([None]).  A record with a
    number, a boolean or a nested value is outside the model: for a column
    of numbers [pd.DataFrame] infers a numeric dtype, which can change
    the values (an integer next to a null becomes a float).  The keys of a
    dict are pairwise distinct; on a list that repeats a key the first
    binding is the one read. *)
Definition record : Type := list (string * option string).

Fixpoint dict_get (r : record) (k : string) : option (option string) :=
  match r with
  | [] => None
  | (k', v) :: rest => if String.eqb k k' then Some v else dict_get rest k
  end.

(** A frame: the column labels, and one list of cells per row, aligned
    with the labels.  Labels may repeat (after renaming). *)
Record DataFrame : Type := mkFrame {
  columns : list string;
  rows : list (list value)
}.

(** The labels of [ks] in the order of their first occurrence. *)
Fixpoint first_seen (seen ks : list string) : list string :=
  match ks with
  | [] => []
  | k :: rest =>
      if mem k seen then first_seen seen rest
      else k :: first_seen (k :: seen) rest
  end.

(** The cell of record [r] under label [c]: a field the record does not
    carry is missing, hence null. *)
Definition cell_of (r : record) (c : string) : value :=
  match dict_get r c with
  | Some (Some s) => VStr s
  | Some None => VNull
  | None => VNull
  end.

(** [pd.DataFrame(data)] for a list of dicts: the columns are the keys of
    all the records, first seen first; one row per record.  The columns
    hold strings and nulls, and are kept as they are (dtype object). *)
Definition frame_of_records (data : list record) : DataFrame :=
  let cols := first_seen [] (flat_map (map fst) data) in
  mkFrame cols (map (fun r => map (cell_of r) cols) data).

(** [df.empty]: some axis has length zero. *)
Definition empty (df : DataFrame) : bool :=
  Nat.eqb (List.length (columns df)) 0 || Nat.eqb (List.length (rows df)) 0.

(** [df.columns = labels]. *)
Definition set_columns (labels : list string) (df : DataFrame) : DataFrame :=
  mkFrame labels (rows df).

(** [c.lower().strip()]. *)
Definition normalize (c : string) : string := str_strip (str_lower c).

(** The labels of [subset] that are no column of the frame. *)
Definition missing_labels (subset cols : list string) : list string :=
  filter (fun c => negb (mem c cols)) subset.

(** The row has no null under a column whose label is in [subset]. *)
Definition row_notna (cols subset : list string) (row : list value) : bool :=
  forallb (fun cv => negb (mem (fst cv) subset && isna (snd cv)))
          (combine cols row).

(** The positions, counted from [i], of the columns labelled [c]. *)
Fixpoint positions (i : nat) (c : string) (cols : list string) : list nat :=
  match cols with
  | [] => []
  | a :: rest =>
      if String.eqb c a then i :: positions (S i) c rest
      else positions (S i) c rest
  end.

(** [columns.get_indexer_for(subset)]: for each label of [subset] in turn,
    the positions of the columns that carry it, or one -1 ([None]) when no
    column does. *)
Definition get_indexer_for (subset cols : list string) : list (option nat) :=
  flat_map (fun c =>
              match positions 0 c cols with
              | [] => [None]
              | found => map Some found
              end)
           subset.

(** [indices == -1], for the indices of [subset]. *)
Definition check_of (subset cols : list string) : list bool :=
  map (fun i : option nat => match i with None => true | Some _ => false end)
      (get_indexer_for subset cols).

(** [np.array(subset)[check].tolist()], for a mask as long as [subset]. *)
Definition masked (subset : list string) (check : list bool) : list string :=
  map fst (filter snd (combine subset check)).

(** [df.dropna(subset=subset)], as pandas 2 has it.
    [check = indices == -1] marks the labels not found.  When there is
    one, pandas builds a [KeyError] from [np.array(subset)[check]]: numpy
    refuses the mask with an [IndexError] when it is not as long as
    [subset], which is when a label of [subset] is carried by two
    columns.  Otherwise the columns at [indices] are taken, and the rows
    kept are those without a null in them: without a null under the
    labels of [subset] (under every column that carries such a label,
    when a label repeats). *)
Definition dropna (subset : list string) (df : DataFrame) : result DataFrame :=
  let check := check_of subset (columns df) in
  if existsb (fun b => b) check then
    if Nat.eqb (List.length check) (List.length subset)
    then Raise (KeyError (masked subset check))
    else Raise IndexError
  else
    Ok (mkFrame (columns df)
                (filter (row_notna (columns df) subset) (rows df))).

(** [f] applied to the cells under label [col], the other cells kept. *)
Definition map_row (f : value -> value) (col : string) (cols : list string)
    (row : list value) : list value :=
  map (fun cv => if String.eqb (fst cv) col then f (snd cv) else snd cv)
      (combine cols row).

Definition map_column (f : value -> value) (col : string) (df : DataFrame)
  : DataFrame :=
  mkFrame (columns df) (map (map_row f col (columns df)) (rows df)).

(** [series.fillna("unknown")], cell by cell. *)
Definition fillna_unknown (v : value) : value :=
  if isna v then VStr "unknown" else v.

(** [pd.to_numeric(series, errors="coerce")], cell by cell: what does not
    read as a number becomes null. *)
Definition to_numeric_coerce (v : value) : value :=
  match v with
  | VStr s =>
      match str_to_float s with
      | Some x => VNum x
      | None => VNull
      end
  | _ => v
  end.

Definition str_cols : list string :=
  ["city"; "country"; "state_province"; "postal_code"; "phone";
   "website_url"; "address_1"; "address_2"; "address_3"].

(** The loop over [str_cols]. *)
Definition fill_str_cols (df : DataFrame) : DataFrame :=
  fold_left
    (fun df col =>
       if mem col (columns df) then map_column fillna_unknown col df else df)
    str_cols df.

(** The loop over the coordinates.  Under a label that repeats, [df[coord]]
    is a frame, which [pd.to_numeric] refuses with a [TypeError]. *)
Fixpoint cast_coordinates (coords : list string) (df : DataFrame)
  : result DataFrame :=
  match coords with
  | [] => Ok df
  | coord :: rest =>
      if mem coord (columns df) then
        if Nat.eqb (count coord (columns df)) 1 then
          cast_coordinates rest (map_column to_numeric_coerce coord df)
        else Raise (TypeError "arg must be a list, tuple, 1-d array, or Series")
      else cast_coordinates rest df
  end.

Definition clean_and_transform (data : list record) : result DataFrame :=
  let df := frame_of_records data in
  if empty df then Ok df
  else
    let df := set_columns (map normalize (columns df)) df in
    match dropna ["brewery_type"; "state"] df with
    | Raise e => Raise e
    | Ok df => cast_coordinates ["latitude"; "longitude"] (fill_str_cols df)
    end.

(** *** The vocabulary of the properties of [clean_and_transform] *)

Definition required : list string := ["brewery_type"; "state"].

Definition coordinates : list string := ["latitude"; "longitude"].

(** The labels of the frame built from [data], once renamed. *)
Definition labels_of (data : list record) : list string :=
  map normalize (columns (frame_of_records data)).

(** The row of a record in the frame built from [data]. *)
Definition row_of (data : list record) (r : record) : list value :=
  map (cell_of r) (columns (frame_of_records data)).

(** The cells of a row under a label. *)
Definition cells_under (col : string) (cols : list string) (row : list value)
  : list value :=
  map snd (filter (fun cv => String.eqb (fst cv) col) (combine cols row)).

(** [g], told the label, applied to every cell of a row. *)
Definition cellwise (g : string -> value -> value) (cols : list string)
    (row : list value) : list value :=
  map (fun cv => g (fst cv) (snd cv)) (combine cols row).

(** Every row has one cell per column. *)
Definition aligned (df : DataFrame) : Prop :=
  Forall (fun row => List.length row = List.length (columns df)) (rows df).

(** [f] under every label of [l]. *)
Definition under (f : value -> value) (l : list string) (c : string) (v : value)
  : value :=
  if mem c l then f v else v.

(** What the two loops that follow [dropna] do to a cell, by its label. *)
Definition finish_cell (c : string) (v : value) : value :=
  let v := if mem c str_cols then fillna_unknown v else v in
  if mem c coordinates then to_numeric_coerce v else v.

(** The row of the record passes the filter of [dropna]. *)
Definition passes_dropna (data : list record) (r : record) : bool :=
  row_notna (labels_of data) required (row_of data r).


(** The row of a record once its optional strings are filled and its
    coordinates coerced. *)
Definition cleaned_row (data : list record) (r : record) : list value :=
  cellwise finish_cell (labels_of data) (row_of data r).

(** *** The records themselves

    What the properties say of the records is said of their fields, read
    with [dict.get], not of the frame built from them. *)

(** The field names the records carry. *)
Definition field_names (data : list record) : list string :=
  flat_map (map fst) data.

(** The names, each once, under which the records carry the field [c]:
    the keys that read [c] once lower-cased and stripped. *)
Definition names_of (data : list record) (c : string) : list string :=
  nodup string_dec
        (filter (fun k => String.eqb (str_strip (str_lower k)) c)
                (field_names data)).

(** [r.get(k)]: what the record has under the key, null when it has no
    such key. *)
Definition field_of (r : record) (k : string) : option string :=
  match dict_get r k with
  | Some f => f
  | None => None
  end.

(** The record has a brewery_type and a state, under the keys [kt] and
    [ks], neither of them null. *)
Definition complete (kt ks : string) (r : record) : bool :=
  notnull (field_of r kt) && notnull (field_of r ks).

(** The required fields that no record carries. *)
Definition absent_required (data : list record) : list string :=
  filter (fun c => match names_of data c with [] => true | _ :: _ => false end)
         ["brewery_type"; "state"].

(** A field as a cell. *)
Definition value_of (f : option string) : value :=
  match f with
  | Some s => VStr s
  | None => VNull
  end.

End Silver.

(** *** A runtime to run the model on examples

    ASCII text; a text of decimal digits reads as that natural number,
    and any other text is taken not to read as a number.  [pd.to_numeric]
    reads more (a sign, a decimal point, an exponent): the examples use
    none of these. *)

Definition ascii_lower (c : ascii) : ascii :=
  let n := nat_of_ascii c in
  if Nat.leb 65 n && Nat.leb n 90 then ascii_of_nat (n + 32) else c.

Definition ascii_space (c : ascii) : bool :=
  let n := nat_of_ascii c in
  Nat.eqb n 32 || (Nat.leb 9 n && Nat.leb n 13) || (Nat.leb 28 n && Nat.leb n 31).

Fixpoint lower (s : string) : string :=
  match s with
  | EmptyString => EmptyString
  | String c rest => String (ascii_lower c) (lower rest)
  end.

Fixpoint lstrip (s : string) : string :=
  match s with
  | EmptyString => EmptyString
  | String c rest => if ascii_space c then lstrip rest else s
  end.

Fixpoint rstrip (s : string) : string :=
  match s with
  | EmptyString => EmptyString
  | String c rest =>
      match rstrip rest with
      | EmptyString => if ascii_space c then EmptyString else String c EmptyString
      | rest' => String c rest'
      end
  end.

Definition strip (s : string) : string := rstrip (lstrip s).

Fixpoint digits_value (acc : nat) (s : string) : option nat :=
  match s with
  | EmptyString => Some acc
  | String c rest =>
      let n := nat_of_ascii c in
      if Nat.leb 48 n && Nat.leb n 57
      then digits_value (10 * acc + (n - 48)) rest
      else None
  end.

Definition natural_of_string (s : string) : option nat :=
  match s with
  | EmptyString => None
  | String _ _ => digits_value 0 s
  end.

Definition ascii_runtime : Runtime :=
  {| number := nat;
     str_lower := lower;
     str_strip := strip;
     str_to_float := natural_of_string |}.

(** Two records as the API sends them, the second without a type. *)
Definition sample_records : list record :=
  [ [("id", Some "1"); ("Brewery_Type", Some "micro"); ("state", Some "Texas");
     ("city", None); ("latitude", Some "north"); ("longitude", Some "97")];
    [("id", Some "2"); ("Brewery_Type", None); ("state", Some "Ohio");
     ("city", Some "Akron"); ("latitude", Some "41"); ("longitude", Some "81")] ].

Definition sample_cleaned : @DataFrame ascii_runtime :=
  mkFrame ["id"; "brewery_type"; "state"; "city"; "latitude"; "longitude"]
          [[VStr "1"; VStr "micro"; VStr "Texas"; VStr "unknown"; VNull; @VNum ascii_runtime 97]].

(** A record that carries no field: the dict [{}]. *)
Definition no_fields : record := [].

(** A record without a brewery_type. *)
Definition untyped_records : list record :=
  [ [("id", Some "1"); ("state", Some "Texas")] ].

(** Two records that write the name of the type differently, each with a
    type and a state. *)
Definition mixed_case_records : list record :=
  [ [("id", Some "1"); ("brewery_type", Some "micro"); ("state", Some "Texas")];
    [("id", Some "2"); ("Brewery_Type", Some "nano"); ("state", Some "Ohio")] ].


(** A record that carries its type under two names, and no state. *)
Definition twice_typed : list record :=
  [ [("brewery_type", Some "micro"); ("Brewery_Type", Some "nano")] ].

(** The records of the tests of the repository, with their country. *)
Definition located_records : list record :=
  [ [("id", Some "1"); ("name", Some "Brew A"); ("brewery_type", Some "micro");
     ("state", Some "California"); ("country", Some "United States");
     ("city", Some "Los Angeles"); ("latitude", Some "34"); ("longitude", Some "118")];
    [("id", Some "3"); ("name", Some "Brew C"); ("brewery_type", None);
     ("state", None); ("country", Some "United States");
     ("city", None); ("latitude", None); ("longitude", None)] ].

Definition located_cleaned : @DataFrame ascii_runtime :=
  mkFrame ["id"; "name"; "brewery_type"; "state"; "country"; "city";
           "latitude"; "longitude"]
          [[VStr "1"; VStr "Brew A"; VStr "micro"; VStr "California";
            VStr "United States"; VStr "Los Angeles";
            @VNum ascii_runtime 34; @VNum ascii_runtime 118]].

(* --------------------------------------------------------------------- *)
(** ** Gold: [aggregate_breweries] *)
(* --------------------------------------------------------------------- *)

(** A row of the silver dataset, as the aggregation reads it: the
    identifier and the three grouping columns, each of them nullable. *)
Record silver_row : Type := mkSilver {
  row_id : option string;
  row_brewery_type : option string;
  row_country : option string;
  row_state : option string
}.

(** A row of the gold artifact.  [brewery_count] is an int64 column. *)
Record gold_row : Type := mkGold {
  gold_brewery_type : option string;
  gold_country : option string;
  gold_state : option string;
  brewery_count : Z
}.

Record gold_frame : Type := mkGoldFrame {
  gold_columns : list string;
  gold_rows : list gold_row
}.

(** The values of the grouping columns, in the order of the [groupby]
    call: brewery_type, then country, then state. *)
Definition group_key : Type := (string * (string * string))%type.

(** [groupby] keeps its default [dropna=True]: a row with a null in a
    grouping column belongs to no group. *)
Definition key_of (r : silver_row) : option group_key :=
  match row_brewery_type r, row_country r, row_state r with
  | Some t, Some c, Some s => Some (t, (c, s))
  | _, _, _ => None
  end.

Definition key_eqb (k1 k2 : group_key) : bool :=
  String.eqb (fst k1) (fst k2)
  && String.eqb (fst (snd k1)) (fst (snd k2))
  && String.eqb (snd (snd k1)) (snd (snd k2)).

Definition in_group (k : group_key) (r : silver_row) : bool :=
  match key_of r with
  | Some k' => key_eqb k k'
  | None => false
  end.

(** Lexicographic combination of two comparisons. *)
Definition lex (c1 c2 : comparison) : comparison :=
  match c1 with
  | Eq => c2
  | _ => c1
  end.

Definition compare_pair {A B : Type} (cA : A -> A -> comparison)
    (cB : B -> B -> comparison) (x y : A * B) : comparison :=
  lex (cA (fst x) (fst y)) (cB (snd x) (snd y)).

Definition is_le (c : comparison) : bool :=
  match c with
  | Gt => false
  | _ => true
  end.

(** The order in which [groupby(..., sort=True)] lists the groups: by
    brewery_type, then country, then state, each as Python orders
    strings (by code point, which is the order of the UTF-8 bytes). *)
Definition compare_groupby : group_key -> group_key -> comparison :=
  compare_pair String.compare (compare_pair String.compare String.compare).

(** Strings before nulls ([na_position="last"]). *)
Definition compare_nullable (o1 o2 : option string) : comparison :=
  match o1, o2 with
  | Some s1, Some s2 => String.compare s1 s2
  | Some _, None => Lt
  | None, Some _ => Gt
  | None, None => Eq
  end.

(** What [sort_values(["country", "state", "brewery_type"])] sorts by. *)
Definition sort_key (r : gold_row)
  : option string * (option string * option string) :=
  (gold_country r, (gold_state r, gold_brewery_type r)).

(** Comparing by a key. *)
Definition compare_on {A K : Type} (c : K -> K -> comparison) (f : A -> K)
    (x y : A) : comparison :=
  c (f x) (f y).

Definition compare_sort_values : gold_row -> gold_row -> comparison :=
  compare_on
    (compare_pair compare_nullable (compare_pair compare_nullable compare_nullable))
    sort_key.

(** A comparison that orders its type: [Eq] is equality, [Gt] is the
    converse of [Lt], and [Lt] is transitive. *)
Class Order {A : Type} (cmp : A -> A -> comparison) : Prop := {
  order_eq : forall a b, cmp a b = Eq <-> a = b;
  order_antisym : forall a b, cmp a b = CompOpp (cmp b a);
  order_trans : forall a b c, cmp a b = Lt -> cmp b c = Lt -> cmp a c = Lt
}.

Section Sorting.

Context {A : Type} (cmp : A -> A -> comparison).

(** A stable sort, ascending for [cmp]. *)
Fixpoint insert_sorted (x : A) (l : list A) : list A :=
  match l with
  | [] => [x]
  | y :: rest =>
      if is_le (cmp x y) then x :: l else y :: insert_sorted x rest
  end.

Definition sort_by (l : list A) : list A :=
  fold_right insert_sorted [] l.

End Sorting.

(** The keys of [l], each once, in the order of their first occurrence. *)
Fixpoint distinct (l : list group_key) : list group_key :=
  match l with
  | [] => []
  | k :: rest => k :: filter (fun k' => negb (key_eqb k k')) (distinct rest)
  end.

(** The keys of the rows that have one. *)
Fixpoint keys_of (df : list silver_row) : list group_key :=
  match df with
  | [] => []
  | r :: rest =>
      match key_of r with
      | Some k => k :: keys_of rest
      | None => keys_of rest
      end
  end.

(** The groups of [groupby(["brewery_type", "country", "state"],
    as_index=False, observed=True)]: the keys observed, in ascending
    order. *)
Definition groups (df : list silver_row) : list group_key :=
  sort_by compare_groupby (distinct (keys_of df)).

(** [("id", "count")]: the rows of the group whose id is not null.  The
    count is that of a list held in memory, far below 2^63. *)
Definition count_id (df : list silver_row) (k : group_key) : Z :=
  Z.of_nat (List.length (filter (fun r => in_group k r && notnull (row_id r)) df)).

Definition gold_of (k : group_key) (n : Z) : gold_row :=
  mkGold (Some (fst k)) (Some (fst (snd k))) (Some (snd (snd k))) n.

Definition groupby_count (df : list silver_row) : list gold_row :=
  map (fun k => gold_of k (count_id df k)) (groups df).

Definition by_columns : list string := ["brewery_type"; "country"; "state"].

(** [reset_index(drop=True)] renumbers the rows, which a list does by
    itself. *)
Definition aggregate_breweries (df : list silver_row) : result gold_frame :=
  match df with
  | [] => Raise (ValueError "Input DataFrame is empty. Cannot aggregate.")
  | _ :: _ =>
      Ok (mkGoldFrame (by_columns ++ ["brewery_count"])
                      (sort_by compare_sort_values (groupby_count df)))
  end.

(** The sum of a column of counts, as a mathematical integer. *)
Definition total_count (rows : list gold_row) : Z :=
  fold_right Z.add 0%Z (map brewery_count rows).

(** A cleaned record: the type and the state are not null (rows without
    them are dropped by the cleaning), and neither is the country (it is
    one of the strings the cleaning fills). *)
Definition cleaned (r : silver_row) : bool :=
  notnull (row_brewery_type r) && notnull (row_country r) && notnull (row_state r).

(** The number of rows of the group. *)
Definition group_size (df : list silver_row) (k : group_key) : Z :=
  Z.of_nat (List.length (filter (in_group k) df)).

(** The frame of the repository's test of the counts, and its aggregate. *)
Definition tested_rows : list silver_row :=
  [mkSilver (Some "1") (Some "micro") (Some "United States") (Some "California");
   mkSilver (Some "2") (Some "micro") (Some "United States") (Some "California");
   mkSilver (Some "3") (Some "nano") (Some "United States") (Some "Texas")].

Definition tested_gold : gold_frame :=
  mkGoldFrame ["brewery_type"; "country"; "state"; "brewery_count"]
    [mkGold (Some "micro") (Some "United States") (Some "California") 2;
     mkGold (Some "nano") (Some "United States") (Some "Texas") 1].

(** One cleaned record, whose id is null. *)
Definition unidentified : list silver_row :=
  [mkSilver None (Some "micro") (Some "United States") (Some "Texas")].

(** Two cleaned records of one group, the second with a null id, and a
    third of another group. *)
Definition partly_identified : list silver_row :=
  [mkSilver (Some "1") (Some "micro") (Some "United States") (Some "Texas");
   mkSilver None (Some "micro") (Some "United States") (Some "Texas");
   mkSilver (Some "3") (Some "nano") (Some "United States") (Some "Ohio")].

(* --------------------------------------------------------------------- *)
(** ** The quality gate: [run_quality_check] *)
(* --------------------------------------------------------------------- *)

Definition gold_file : string :=
  "/opt/airflow/data/gold/breweries_aggregated.parquet".

(** The store, as the gate sees it: for a path, [None] when no file is
    there, and otherwise what [pd.read_parquet] gives for the file: a
    frame with the four columns of the artifact, or what it raises (a
    file that is not parquet). *)
Definition filesystem : Type := string -> option (result (list gold_row)).

(** Addition on int64 wraps around. *)
Definition wrap64 (z : Z) : Z :=
  ((z + 2 ^ 63) mod 2 ^ 64 - 2 ^ 63)%Z.

(** [df["brewery_count"].sum()] on an int64 column. *)
Definition sum_int64 (l : list Z) : Z :=
  fold_left (fun acc x => wrap64 (acc + x)) l 0%Z.

Definition isnull (o : option string) : bool := negb (notnull o).

(** [df[key_cols].isnull().sum()]: the nulls of each key column. *)
Definition null_counts (df : list gold_row) : list (string * nat) :=
  [("brewery_type", List.length (filter (fun r => isnull (gold_brewery_type r)) df));
   ("country", List.length (filter (fun r => isnull (gold_country r)) df));
   ("state", List.length (filter (fun r => isnull (gold_state r)) df))].

(** A row with a null in a key column. *)
Definition has_null_key (r : gold_row) : Prop :=
  gold_brewery_type r = None \/ gold_country r = None \/ gold_state r = None.

(** [str(n)]. *)
Definition decimal (n : nat) : string :=
  NilZero.string_of_uint (Nat.to_uint n).

(** The items of a dict from labels to counts, as Python prints them. *)
Fixpoint items_text (items : list (string * nat)) : string :=
  match items with
  | [] => ""
  | (label, n) :: rest =>
      let item := ("'" ++ label ++ "': " ++ decimal n)%string in
      match rest with
      | [] => item
      | _ :: _ => (item ++ ", " ++ items_text rest)%string
      end
  end.

(** [null_counts[null_counts > 0].to_dict()], in an f-string. *)
Definition positive_counts_text (counts : list (string * nat)) : string :=
  ("{" ++ items_text (filter (fun cn => negb (Nat.eqb (snd cn) 0)) counts)
       ++ "}")%string.

(** [run_quality_check] reads the store and raises or returns; it is
    given the store and hands it back with its outcome. *)
Definition run_quality_check (fs : filesystem) : filesystem * result unit :=
  match fs gold_file with
  | None =>
      (fs, Raise (FileNotFoundError
                    ("Data quality check FAILED: gold file not found at "
                       ++ gold_file)%string))
  | Some (Raise e) => (fs, Raise e)
  | Some (Ok df) =>
      match df with
      | [] => (fs, Raise (ValueError "Data quality check FAILED: gold layer is empty."))
      | _ :: _ =>
          let total := sum_int64 (map brewery_count df) in
          if (total =? 0)%Z then
            (fs, Raise (ValueError "Data quality check FAILED: brewery_count sums to zero."))
          else if existsb (fun cn => negb (Nat.eqb (snd cn) 0)) (null_counts df) then
            (fs, Raise (ValueError
                          ("Data quality check FAILED: null values in key columns: "
                             ++ positive_counts_text (null_counts df))%string))
          else (fs, Ok tt)
      end
  end.

(** The store that holds the given artifact, and nothing else. *)
Definition holding (df : list gold_row) : filesystem :=
  fun path => if String.eqb path gold_file then Some (Ok df) else None.

(** An artifact of four groups of 2^62 breweries each. *)
Definition overflowing_gold : list gold_row :=
  [mkGold (Some "micro") (Some "United States") (Some "Ohio") (2 ^ 62);
   mkGold (Some "micro") (Some "United States") (Some "Texas") (2 ^ 62);
   mkGold (Some "nano") (Some "United States") (Some "Ohio") (2 ^ 62);
   mkGold (Some "nano") (Some "United States") (Some "Texas") (2 ^ 62)].

(* --------------------------------------------------------------------- *)
(** ** Bronze: paging and the raw snapshot *)
(* --------------------------------------------------------------------- *)

Section Bronze.

(** The ingestion never looks inside a record: [json] is whatever
    [response.json()] yields for one brewery. *)
Context {json : Type}.

(** What the ingestion does to the world. *)
Variant bronzeE : Type -> Type :=
| HttpGet (page per_page : nat) : bronzeE (result (list json))
    (** [requests.get], [raise_for_status] and [response.json()] *)
| MakeDirs (path : string) : bronzeE unit
    (** [os.makedirs(path, exist_ok=True)] *)
| Now : bronzeE string
    (** [datetime.now().strftime("%Y%m%d_%H%M%S")] *)
| WriteJson (path : string) (data : list json) : bronzeE unit.
    (** [open(path, "w")] and [json.dump] *)

Definition BRONZE_PATH : string := "/opt/airflow/data/bronze".

(** The three [except] clauses log and re-raise: the outcome of the
    request is that of the call. *)
Definition fetch_breweries (page per_page : nat)
  : itree bronzeE (result (list json)) :=
  ITree.trigger (HttpGet page per_page).

(** One turn of the [while True] loop, on [(all_breweries, page)]. *)
Definition fetch_step (st : list json * nat)
  : itree bronzeE (list json * nat + result (list json)) :=
  let '(all_breweries, page) := st in
  ITree.bind (fetch_breweries page 200)
    (fun data =>
       match data with
       | Raise e => Ret (inr (Raise e))
       | Ok [] => Ret (inr (Ok all_breweries))
       | Ok ((_ :: _) as data) => Ret (inl (all_breweries ++ data, page + 1))
       end).

Definition fetch_all_breweries : itree bronzeE (result (list json)) :=
  ITree.iter fetch_step ([], 1).

(** [os.path.join] of a directory and a relative name. *)
Definition path_join (dir name : string) : string :=
  match dir with
  | EmptyString => name
  | _ =>
      if String.eqb (String.substring (String.length dir - 1) 1 dir) "/"
      then (dir ++ name)%string
      else (dir ++ "/" ++ name)%string
  end.

Definition save_to_bronze (data : list json) (bronze_path : string)
  : itree bronzeE (result string) :=
  ITree.bind (ITree.trigger (MakeDirs bronze_path)) (fun _ =>
  ITree.bind (ITree.trigger Now) (fun timestamp =>
  let filepath :=
    path_join bronze_path ("breweries_raw_" ++ timestamp ++ ".json")%string in
  ITree.bind (ITree.trigger (WriteJson filepath data)) (fun _ =>
  Ret (Ok filepath)))).

Definition ingest_breweries : itree bronzeE (result string) :=
  ITree.bind fetch_all_breweries
    (fun fetched =>
       match fetched with
       | Raise e => Ret (Raise e)
       | Ok [] => Ret (Raise (ValueError "No data fetched from API. Aborting ingestion."))
       | Ok ((_ :: _) as data) => save_to_bronze data BRONZE_PATH
       end).

(** The world the events act on. *)
Record world : Type := mkWorld {
  api : nat -> nat -> result (list json);
    (** what the API answers for a page and a page size *)
  requested : list nat;
    (** the pages asked for so far, oldest first *)
  clock : string;
    (** the time of day, as [strftime] prints it *)
  dirs : list string;
    (** the directories [makedirs] was called on, newest first *)
  files : list (string * list json)
    (** the files on disk with what they hold, the last written first *)
}.

(** [open(path, "w")] and [json.dump]: a file already at the path is
    replaced, the other files are kept. *)
Definition write_json (path : string) (data : list json)
    (on_disk : list (string * list json)) : list (string * list json) :=
  (path, data)
    :: filter (fun file => negb (String.eqb (fst file) path)) on_disk.

Definition handle_bronze : bronzeE ~> Monads.stateT world (itree void1) :=
  fun _ e w =>
    match e with
    | HttpGet page per_page =>
        Ret (mkWorld (api w) (requested w ++ [page]) (clock w) (dirs w) (files w),
             api w page per_page)
    | MakeDirs path =>
        Ret (mkWorld (api w) (requested w) (clock w) (path :: dirs w) (files w), tt)
    | Now => Ret (w, clock w)
    | WriteJson path data =>
        Ret (mkWorld (api w) (requested w) (clock w) (dirs w)
                     (write_json path data (files w)), tt)
    end.

(** Running a program of the ingestion from a world. *)
Definition run {R : Type} (t : itree bronzeE R) (w : world)
  : itree void1 (world * R) :=
  interp_state handle_bronze t w.

(** The API that serves the given pages, in order, from page 1.  Asking
    past the last page of the sequence is an HTTP failure. *)
Definition serve (pages : list (list json)) (page per_page : nat)
  : result (list json) :=
  match page with
  | 0 => Raise (RequestException HTTPError)
  | S i =>
      match nth_error pages i with
      | Some data => Ok data
      | None => Raise (RequestException HTTPError)
      end
  end.

(** The pages before the first empty one. *)
Fixpoint before_empty (pages : list (list json)) : list (list json) :=
  match pages with
  | [] => []
  | [] :: _ => []
  | ((_ :: _) as p) :: rest => p :: before_empty rest
  end.

Definition fresh_world (pages : list (list json)) (now : string) : world :=
  mkWorld (serve pages) [] now [] [].

End Bronze.

Arguments bronzeE : clear implicits.
Arguments world : clear implicits.

(* --------------------------------------------------------------------- *)
(** ** The entry points of the silver and the gold stages *)
(* --------------------------------------------------------------------- *)

(** A program that reads and writes a store of type [S], and returns or
    raises; the store it leaves is kept in both cases. *)
Definition stage (S A : Type) : Type := S -> result A * S.

Definition stage_ret {S A : Type} (a : A) : stage S A :=
  fun s => (Ok a, s).

Definition stage_raise {S A : Type} (e : exn) : stage S A :=
  fun s => (Raise e, s).

Definition stage_bind {S A B : Type} (m : stage S A) (k : A -> stage S B)
  : stage S B :=
  fun s =>
    match m s with
    | (Ok a, s') => k a s'
    | (Raise e, s') => (Raise e, s')
    end.

(** A call that does not touch the store. *)
Definition stage_lift {S A : Type} (r : result A) : stage S A :=
  fun s => (r, s).

Notation "'let!' x ':=' m 'in' k" := (stage_bind m (fun x => k))
  (at level 10, x name, m at level 100, k at level 200).

Definition SILVER_PATH : string := "/opt/airflow/data/silver".

(** The path [save_to_bronze] gives the snapshot it writes when the
    clock reads [timestamp]. *)
Definition snapshot_path (bronze_path timestamp : string) : string :=
  path_join bronze_path ("breweries_raw_" ++ timestamp ++ ".json").

Definition GOLD_PATH : string := "/opt/airflow/data/gold".

Section SilverStage.

Context {rt : Runtime}.

(** What [transform_breweries] finds on disk, and what it leaves there.
    What [to_parquet] does to the partitions of a dataset is pyarrow's:
    the store keeps the calls that went through. *)
Record silver_disk : Type := mkSilverDisk {
  glob_json : string -> list string;
    (** the files [glob] finds for a pattern, in the order it lists them *)
  json_at : string -> result (list record);
    (** what [open] and [json.load] give for a file: the records it
        holds, or what they raise (a file that is not JSON) *)
  arrow_refuses : DataFrame -> option exn;
    (** the frames [Table.from_pandas] does not convert (two columns of
        one name, a column of mixed types), with what it raises *)
  made : list string;
    (** the directories [makedirs] was called on, newest first *)
  datasets : list (string * list string * DataFrame)
    (** the partitioned writes done: the root, the partition columns
        and the frame, newest first *)
}.

Definition load_latest_bronze (bronze_path : string)
  : stage silver_disk (list record) :=
  fun s =>
    let files :=
      sort_by String.compare
              (glob_json s (path_join bronze_path "breweries_raw_*.json")) in
    match files with
    | [] =>
        (Raise (FileNotFoundError
                  ("No bronze files found at: " ++ bronze_path)%string), s)
    | _ :: _ => (json_at s (last files EmptyString), s)
    end.

(** [to_parquet] converts the frame to a table, then selects the
    partition columns, which raises a [KeyError] on the first of them
    that the table does not have, then writes; the write itself is taken
    to go through. *)
Definition save_to_silver (df : DataFrame) (silver_path : string)
  : stage silver_disk string :=
  fun s =>
    let s := mkSilverDisk (glob_json s) (json_at s) (arrow_refuses s)
                          (silver_path :: made s) (datasets s) in
    match arrow_refuses s df with
    | Some e => (Raise e, s)
    | None =>
        match missing_labels ["country"; "state"] (columns df) with
        | c :: _ => (Raise (KeyError [c]), s)
        | [] =>
            (Ok silver_path,
             mkSilverDisk (glob_json s) (json_at s) (arrow_refuses s) (made s)
                          ((silver_path, ["country"; "state"], df)
                             :: datasets s))
        end
    end.

Definition transform_breweries : stage silver_disk string :=
  let! data := load_latest_bronze BRONZE_PATH in
  match data with
  | [] =>
      stage_raise
        (ValueError "Bronze layer returned empty data. Aborting transformation.")
  | _ :: _ =>
      let! df := stage_lift (clean_and_transform data) in
      let! path := save_to_silver df SILVER_PATH in
      stage_ret path
  end.

(** The most recent snapshot: the greatest of the paths [glob] finds
    under the bronze path. *)
Definition latest_snapshot (s : silver_disk) (latest : string) : Prop :=
  In latest (glob_json s "/opt/airflow/data/bronze/breweries_raw_*.json")
  /\ forall p,
       In p (glob_json s "/opt/airflow/data/bronze/breweries_raw_*.json") ->
       is_le (String.compare p latest) = true.

(** The store after [makedirs] on the silver path. *)
Definition with_silver_dir (s : silver_disk) : silver_disk :=
  mkSilverDisk (glob_json s) (json_at s) (arrow_refuses s)
               (SILVER_PATH :: made s) (datasets s).

End SilverStage.

(** The frame [pd.read_parquet] builds from the silver files: its rows,
    and which of its columns it made categorical.  As for
    [aggregate_breweries], the frame is one that has the id and the three
    grouping columns. *)
Record silver_read : Type := mkSilverRead {
  read_rows : list silver_row;
  categorical : string -> bool
}.

(** What [aggregate_gold] finds on disk, and the gold files. *)
Record gold_disk : Type := mkGoldDisk {
  path_exists : string -> bool;
    (** [os.path.exists] *)
  glob_parquet : string -> list string;
    (** the files the recursive [glob] finds for a pattern *)
  read_parquet : list string -> result silver_read;
    (** what [pd.read_parquet] gives for a list of files: the frame, or
        what it raises (a file that is not parquet) *)
  astype_str : option string -> option string;
    (** what [astype(str)] makes of a cell of a categorical column *)
  gold_made : list string;
    (** the directories [makedirs] was called on, newest first *)
  gold_files : filesystem
    (** the gold artifacts, by path *)
}.

(** The column of a silver row, by its label. *)
Definition set_column (col : string) (f : option string -> option string)
    (r : silver_row) : silver_row :=
  if String.eqb col "country" then
    mkSilver (row_id r) (row_brewery_type r) (f (row_country r)) (row_state r)
  else if String.eqb col "state" then
    mkSilver (row_id r) (row_brewery_type r) (row_country r) (f (row_state r))
  else if String.eqb col "brewery_type" then
    mkSilver (row_id r) (f (row_brewery_type r)) (row_country r) (row_state r)
  else r.

(** The loop that turns the categorical columns into strings. *)
Definition cast_categorical (f : option string -> option string)
    (df : silver_read) : list silver_row :=
  fold_left
    (fun rows col =>
       if categorical df col then map (set_column col f) rows else rows)
    ["country"; "state"; "brewery_type"] (read_rows df).

Definition load_silver (silver_path : string)
  : stage gold_disk (list silver_row) :=
  fun s =>
    if negb (path_exists s silver_path) then
      (Raise (FileNotFoundError
                ("Silver path not found: " ++ silver_path)%string), s)
    else
      let parquet_files :=
        glob_parquet s (path_join silver_path "**/*.parquet") in
      match parquet_files with
      | [] =>
          (Raise (FileNotFoundError
                    ("No Parquet files found in silver path: "
                       ++ silver_path)%string), s)
      | _ :: _ =>
          match read_parquet s parquet_files with
          | Raise e => (Raise e, s)
          | Ok df => (Ok (cast_categorical (astype_str s) df), s)
          end
      end.

(** The store with one more file. *)
Definition write_file (fs : filesystem) (path : string) (rows : list gold_row)
  : filesystem :=
  fun p => if String.eqb p path then Some (Ok rows) else fs p.

(** The frame written is the aggregate, of three string columns and an
    int64 one; the write itself is taken to go through. *)
Definition save_to_gold (df : gold_frame) (gold_path : string)
  : stage gold_disk string :=
  fun s =>
    let filepath := path_join gold_path "breweries_aggregated.parquet" in
    (Ok filepath,
     mkGoldDisk (path_exists s) (glob_parquet s) (read_parquet s) (astype_str s)
                (gold_path :: gold_made s)
                (write_file (gold_files s) filepath (gold_rows df))).

Definition aggregate_gold : stage gold_disk string :=
  let! df := load_silver SILVER_PATH in
  let! agg := stage_lift (aggregate_breweries df) in
  let! path := save_to_gold agg GOLD_PATH in
  stage_ret path.

(* --------------------------------------------------------------------- *)
(** ** Further sample data *)
(* --------------------------------------------------------------------- *)

(** A silver row without a country. *)
Definition stateless_row : silver_row :=
  mkSilver (Some "9") (Some "micro") None (Some "Texas").

(** The frame of the test, its rows in another order. *)
Definition tested_rows_shuffled : list silver_row :=
  [mkSilver (Some "3") (Some "nano") (Some "United States") (Some "Texas");
   mkSilver (Some "2") (Some "micro") (Some "United States") (Some "California");
   mkSilver (Some "1") (Some "micro") (Some "United States") (Some "California")].

(** A bronze directory with three snapshots, listed out of order; the
    most recent one holds the sample records, which have no country; the
    others hold nothing. *)
Definition sample_disk : @silver_disk ascii_runtime :=
  mkSilverDisk
    (fun pattern =>
       if String.eqb pattern "/opt/airflow/data/bronze/breweries_raw_*.json"
       then ["/opt/airflow/data/bronze/breweries_raw_20240102_030405.json";
             "/opt/airflow/data/bronze/breweries_raw_20240103_000000.json";
             "/opt/airflow/data/bronze/breweries_raw_20231231_235959.json"]
       else [])
    (fun path =>
       if String.eqb path
            "/opt/airflow/data/bronze/breweries_raw_20240103_000000.json"
       then Ok sample_records else Ok [])
    (fun _ => None) [] [].

(** The same directory, where the most recent snapshot holds the records
    of the tests. *)
Definition located_disk : @silver_disk ascii_runtime :=
  mkSilverDisk (glob_json sample_disk)
    (fun path =>
       if String.eqb path
            "/opt/airflow/data/bronze/breweries_raw_20240103_000000.json"
       then Ok located_records else Ok [])
    (fun _ => None) [] [].

(** The same directory, where only an older snapshot holds records. *)
Definition stale_disk : @silver_disk ascii_runtime :=
  mkSilverDisk (glob_json sample_disk)
    (fun path =>
       if String.eqb path
            "/opt/airflow/data/bronze/breweries_raw_20240102_030405.json"
       then Ok located_records else Ok [])
    (fun _ => None) [] [].

(** The same directory, where the most recent snapshot holds a record
    without a brewery_type. *)
Definition untyped_disk : @silver_disk ascii_runtime :=
  mkSilverDisk (glob_json sample_disk)
    (fun path =>
       if String.eqb path
            "/opt/airflow/data/bronze/breweries_raw_20240103_000000.json"
       then Ok untyped_records else Ok located_records)
    (fun _ => None) [] [].

(** A silver directory of one file, which holds the frame of the test;
    the partition columns are read as categorical. *)
Definition sample_gold_disk : gold_disk :=
  mkGoldDisk
    (fun path => String.eqb path "/opt/airflow/data/silver")
    (fun pattern =>
       if String.eqb pattern "/opt/airflow/data/silver/**/*.parquet"
       then ["/opt/airflow/data/silver/country=United States/state=Texas/part-0.parquet"]
       else [])
    (fun _ =>
       Ok (mkSilverRead tested_rows
             (fun col => String.eqb col "country" || String.eqb col "state")))
    (fun cell => match cell with Some text => Some text | None => Some "nan" end)
    [] (fun _ => None).

(* ===================================================================== *)
(** * Part II: the properties *)
(* ===================================================================== *)

(** ** Bronze *)

Section BronzeFacts.

Context {json : Type}.

Local Open Scope itree_scope.

Lemma serve_next (done rest : list (list json)) (p : list json) (n : nat) :
  serve (done ++ p :: rest) (S (List.length done)) n = Ok p.
Proof.
  unfold serve.
  rewrite nth_error_app2 by lia.
  now rewrite Nat.sub_diag.
Qed.

(** One turn of the loop on an empty page: the loop returns. *)
Lemma fetch_loop_stops (acc : list json) (page : nat) (w : world json) :
  api w page 200 = Ok [] ->
  run (ITree.iter fetch_step (acc, page)) w
  ≈ Ret (mkWorld (api w) (requested w ++ [page]) (clock w) (dirs w) (files w),
         Ok acc).
Proof.
  intros Hempty. unfold run.
  rewrite unfold_iter. cbn. unfold fetch_breweries.
  rewrite bind_bind, interp_state_bind, interp_state_trigger. cbn.
  rewrite bind_ret_l. cbn. rewrite Hempty.
  rewrite bind_ret_l, interp_state_ret. reflexivity.
Qed.

(** One turn of the loop on a page with records: they are appended and
    the next page is asked for. *)
Lemma fetch_loop_goes_on (acc : list json) (page : nat) (w : world json)
    (x : json) (data : list json) :
  api w page 200 = Ok (x :: data) ->
  run (ITree.iter fetch_step (acc, page)) w
  ≈ run (ITree.iter fetch_step (acc ++ x :: data, page + 1))
        (mkWorld (api w) (requested w ++ [page]) (clock w) (dirs w) (files w)).
Proof.
  intros Hpage. unfold run.
  rewrite unfold_iter at 1. cbn. unfold fetch_breweries.
  rewrite bind_bind, interp_state_bind, interp_state_trigger. cbn.
  rewrite bind_ret_l. cbn. rewrite Hpage.
  rewrite bind_ret_l, interp_state_tau, tau_eutt. reflexivity.
Qed.

(** The loop from page [length done + 1], when the pages in [done] were
    served already and an empty page is still to come. *)
Lemma fetch_loop_spec (todo : list (list json)) :
  forall (done : list (list json)) (acc : list json) (reqs : list nat)
         (now : string) (ds : list string) (fs : list (string * list json)),
    In [] todo ->
    run (ITree.iter fetch_step (acc, S (List.length done)))
        (mkWorld (serve (done ++ todo)) reqs now ds fs)
    ≈ Ret (mkWorld (serve (done ++ todo))
                   (reqs ++ seq (S (List.length done))
                                (S (List.length (before_empty todo))))
                   now ds fs,
           Ok (acc ++ List.concat (before_empty todo))).
Proof.
  induction todo as [|p todo IH]; intros done acc reqs now ds fs Hin.
  - destruct Hin.
  - destruct p as [|x data].
    + rewrite fetch_loop_stops by (cbn [api]; apply serve_next).
      cbn. rewrite app_nil_r. reflexivity.
    + rewrite (fetch_loop_goes_on _ _ _ x data) by (cbn [api]; apply serve_next).
      cbn [api requested clock dirs files].
      assert (Hin' : In [] todo) by (destruct Hin as [Heq|]; [discriminate|assumption]).
      specialize (IH (done ++ [x :: data]) (acc ++ x :: data)
                     (reqs ++ [S (List.length done)]) now ds fs Hin').
      rewrite <- app_assoc in IH. cbn [app] in IH.
      rewrite length_app in IH. cbn [List.length] in IH.
      replace (S (List.length done) + 1) with (S (List.length done + 1)) by lia.
      rewrite IH.
      cbn [before_empty List.concat List.length seq].
      rewrite <- !app_assoc. cbn [app].
      replace (S (S (List.length done))) with (S (List.length done + 1)) by lia.
      reflexivity.
Qed.

(** [before_empty] is the longest prefix of pages that all hold records. *)
Lemma before_empty_prefix (pages : list (list json)) :
  In [] pages ->
  exists rest,
    pages = before_empty pages ++ [] :: rest
    /\ Forall (fun p => p <> []) (before_empty pages).
Proof.
  induction pages as [|p pages IH]; intros Hin.
  - destruct Hin.
  - destruct p as [|x data].
    + exists pages. split; [reflexivity | constructor].
    + destruct Hin as [Heq|Hin]; [discriminate|].
      destruct (IH Hin) as [rest [Heq Hall]].
      exists rest. cbn [before_empty]. split.
      * cbn [app]. now rewrite <- Heq.
      * constructor; [discriminate | assumption].
Qed.

(** C2.  When some page of the sequence is empty, [fetch_all_breweries]
    returns, with the concatenation, in order, of the pages before the
    first empty one; the pages it asked for are 1, 2, ..., one more than
    there are pages before the first empty one. *)
Theorem fetch_all_breweries_until_empty_page
    (pages : list (list json)) (now : string) :
  In [] pages ->
  run fetch_all_breweries (fresh_world pages now)
  ≈ Ret (mkWorld (serve pages)
                 (seq 1 (List.length (before_empty pages) + 1)) now [] [],
         Ok (List.concat (before_empty pages))).
Proof.
  intros Hin. unfold fetch_all_breweries, fresh_world.
  pose proof (fetch_loop_spec pages [] [] [] now [] [] Hin) as H.
  cbn [app List.length] in H. rewrite H.
  now rewrite Nat.add_1_r.
Qed.

(** Stepping over one event of a program run by [run]. *)
Ltac run_event :=
  rewrite interp_state_bind, interp_state_trigger; cbn;
  rewrite bind_ret_l; cbn.

(** What [save_to_bronze] does, whatever the records: it makes the
    directory, reads the clock and writes the snapshot. *)
Lemma save_to_bronze_writes (data : list json) (bronze_path : string)
    (w : world json) :
  let filepath :=
    path_join bronze_path ("breweries_raw_" ++ clock w ++ ".json")%string in
  run (save_to_bronze data bronze_path) w
  ≈ Ret (mkWorld (api w) (requested w) (clock w) (bronze_path :: dirs w)
                 (write_json filepath data (files w)),
         Ok filepath).
Proof.
  intros filepath. unfold run, save_to_bronze.
  do 3 run_event.
  rewrite interp_state_ret. reflexivity.
Qed.

(** C5, as amended.  The empty sequence is refused by [ingest_breweries],
    the caller of [save_to_bronze]: when the first page the API serves is
    empty, it raises a [ValueError] and leaves the store as it was. *)
Theorem ingest_breweries_refuses_no_data (w : world json) :
  api w 1 200 = Ok [] ->
  run ingest_breweries w
  ≈ Ret (mkWorld (api w) (requested w ++ [1]) (clock w) (dirs w) (files w),
         Raise (ValueError "No data fetched from API. Aborting ingestion.")).
Proof.
  intros Hempty. unfold run, ingest_breweries.
  rewrite interp_state_bind.
  pose proof (fetch_loop_stops [] 1 w Hempty) as Hloop.
  unfold run in Hloop. unfold fetch_all_breweries. rewrite Hloop.
  rewrite bind_ret_l. cbn. rewrite interp_state_ret. reflexivity.
Qed.

End BronzeFacts.

(** *** Bronze on examples (records are numbered) *)

(** Two pages of records, then an empty page: three requests, the records
    of the two pages in order. *)
Lemma fetch_all_breweries_until_empty_page_example :
  In [] [[1; 2]; [3]; []; [4]]
  /\ run fetch_all_breweries (fresh_world [[1; 2]; [3]; []; [4]] "20240102_030405")
     ≈ Ret (mkWorld (serve [[1; 2]; [3]; []; [4]]) [1; 2; 3]
                    "20240102_030405" [] [],
            Ok [1; 2; 3]).
Proof.
  split.
  - cbn. auto.
  - apply (fetch_all_breweries_until_empty_page
             [[1; 2]; [3]; []; [4]] "20240102_030405").
    cbn. auto.
Defined.

(** C5, counterexample.  [save_to_bronze] given no record raises nothing:
    it writes a snapshot that holds the empty sequence and returns its
    path. *)
Lemma save_to_bronze_writes_empty_snapshot :
  run (save_to_bronze (@nil nat) "/opt/airflow/data/bronze")
      (fresh_world [] "20240102_030405")
  ≈ Ret (mkWorld (serve []) [] "20240102_030405"
                 ["/opt/airflow/data/bronze"]
                 [("/opt/airflow/data/bronze/breweries_raw_20240102_030405.json",
                   [])],
         Ok "/opt/airflow/data/bronze/breweries_raw_20240102_030405.json")
  /\ ~ (exists (w' : world nat) (e : exn),
          run (save_to_bronze (@nil nat) "/opt/airflow/data/bronze")
              (fresh_world [] "20240102_030405")
          ≈ Ret (w', Raise e)).
Proof.
  split.
  - rewrite save_to_bronze_writes. reflexivity.
  - intros [w' [e H]].
    rewrite save_to_bronze_writes in H.
    apply eutt_inv_Ret in H. discriminate H.
Qed.

Lemma ingest_breweries_refuses_no_data_example :
  api (fresh_world ([[]] : list (list nat)) "20240102_030405") 1 200 = Ok []
  /\ run ingest_breweries (fresh_world ([[]] : list (list nat)) "20240102_030405")
     ≈ Ret (mkWorld (serve [[]]) [1] "20240102_030405" [] [],
            Raise (ValueError "No data fetched from API. Aborting ingestion.")).
Proof.
  split.
  - reflexivity.
  - apply (ingest_breweries_refuses_no_data
             (fresh_world ([[]] : list (list nat)) "20240102_030405")).
    reflexivity.
Defined.

(** ** Silver *)

Section SilverFacts.

Context {rt : Runtime}.

Lemma mem_In (x : string) (l : list string) : mem x l = true <-> In x l.
Proof.
  unfold mem. rewrite existsb_exists. split.
  - intros [y [Hin Heq]]. apply String.eqb_eq in Heq. now subst.
  - intros Hin. exists x. split; [assumption | apply String.eqb_refl].
Qed.

Lemma mem_cons (x a : string) (l : list string) :
  mem x (a :: l) = String.eqb x a || mem x l.
Proof. reflexivity. Qed.

(** *** Rows and cells *)

Lemma combine_cellwise (g : string -> value -> value) (cols : list string) :
  forall row,
    combine cols (cellwise g cols row)
    = map (fun cv => (fst cv, g (fst cv) (snd cv))) (combine cols row).
Proof.
  unfold cellwise.
  induction cols as [|c cols IH]; intros [|v row]; cbn; try reflexivity.
  now rewrite IH.
Qed.

Lemma cellwise_cellwise (g1 g2 : string -> value -> value)
    (cols : list string) (row : list value) :
  cellwise g2 cols (cellwise g1 cols row)
  = cellwise (fun c v => g2 c (g1 c v)) cols row.
Proof.
  unfold cellwise at 1. rewrite combine_cellwise.
  unfold cellwise. now rewrite map_map.
Qed.

Lemma cellwise_ext (g1 g2 : string -> value -> value) (cols : list string)
    (row : list value) :
  (forall c v, In c cols -> g1 c v = g2 c v) ->
  cellwise g1 cols row = cellwise g2 cols row.
Proof.
  intros Hext. unfold cellwise. apply map_ext_in.
  intros [c v] Hin. cbn. apply Hext.
  now apply in_combine_l in Hin.
Qed.

Lemma cellwise_id (cols : list string) :
  forall row,
    List.length row = List.length cols ->
    cellwise (fun _ v => v) cols row = row.
Proof.
  unfold cellwise.
  induction cols as [|c cols IH]; intros [|v row] Hlen; cbn in *;
    try reflexivity; try discriminate.
  f_equal. apply IH. lia.
Qed.

Lemma cellwise_length (g : string -> value -> value) (cols : list string)
    (row : list value) :
  List.length row = List.length cols ->
  List.length (cellwise g cols row) = List.length cols.
Proof.
  intros Hlen. unfold cellwise.
  rewrite length_map, length_combine. lia.
Qed.

Lemma map_row_cellwise (f : value -> value) (col : string)
    (cols : list string) (row : list value) :
  map_row f col cols row
  = cellwise (fun c v => if String.eqb c col then f v else v) cols row.
Proof. reflexivity. Qed.

(** *** The frame of a list of records *)

Lemma frame_of_records_aligned (data : list record) :
  aligned (frame_of_records data).
Proof.
  unfold aligned, frame_of_records. cbn.
  apply Forall_forall. intros row Hin.
  apply in_map_iff in Hin. destruct Hin as [r [<- _]].
  apply length_map.
Qed.

Lemma frame_of_records_rows (data : list record) :
  rows (frame_of_records data) = map (row_of data) data.
Proof. reflexivity. Qed.

(** *** One column at a time *)

Lemma map_column_aligned (f : value -> value) (col : string) (df : DataFrame) :
  aligned df -> aligned (map_column f col df).
Proof.
  unfold aligned, map_column. cbn. intros Hal.
  apply Forall_forall. intros row Hin.
  apply in_map_iff in Hin. destruct Hin as [row' [<- Hin']].
  rewrite Forall_forall in Hal.
  apply (cellwise_length (fun c v => if String.eqb c col then f v else v)).
  now apply Hal.
Qed.

(** The test [if col in df.columns] changes nothing on a frame whose rows
    are aligned: without a column of that label, no cell is touched. *)
Lemma guarded_map_column (f : value -> value) (col : string) (df : DataFrame) :
  aligned df ->
  (if mem col (columns df) then map_column f col df else df)
  = map_column f col df.
Proof.
  intros Hal. destruct (mem col (columns df)) eqn:Hmem; [reflexivity|].
  destruct df as [cols rws]. unfold map_column. cbn [columns rows] in *. f_equal.
  symmetry. rewrite <- (map_id rws) at 2. apply map_ext_in.
  intros row Hin. unfold aligned in Hal. rewrite Forall_forall in Hal.
  rewrite <- (cellwise_id cols row) at 2 by now apply Hal.
  apply (cellwise_ext (fun c v => if String.eqb c col then f v else v)).
  intros c v Hc. destruct (String.eqb_spec c col) as [->|]; [|reflexivity].
  apply mem_In in Hc. congruence.
Qed.

Lemma map_columns_spec (f : value -> value) (l : list string) :
  (forall v, f (f v) = f v) ->
  forall df,
    aligned df ->
    fold_left (fun df col => map_column f col df) l df
    = mkFrame (columns df) (map (cellwise (under f l) (columns df)) (rows df)).
Proof.
  intros Hidem. induction l as [|col l IH]; intros df Hal.
  - cbn. destruct df as [cols rws]. cbn. f_equal.
    rewrite <- (map_id rws) at 1. apply map_ext_in.
    intros row Hin. unfold aligned in Hal. rewrite Forall_forall in Hal.
    symmetry. apply cellwise_id. now apply Hal.
  - cbn [fold_left]. rewrite IH by now apply map_column_aligned.
    unfold map_column. cbn [columns rows]. f_equal.
    rewrite map_map. apply map_ext. intros row.
    rewrite map_row_cellwise, cellwise_cellwise.
    apply cellwise_ext. intros c v _. unfold under. rewrite mem_cons.
    destruct (String.eqb c col), (mem c l); cbn; try reflexivity.
    apply Hidem.
Qed.

Lemma guarded_fold (f : value -> value) (l : list string) :
  forall df,
    aligned df ->
    fold_left
      (fun df col => if mem col (columns df) then map_column f col df else df)
      l df
    = fold_left (fun df col => map_column f col df) l df.
Proof.
  induction l as [|col l IH]; intros df Hal; [reflexivity|].
  cbn [fold_left]. rewrite guarded_map_column by assumption.
  apply IH. now apply map_column_aligned.
Qed.

Lemma fillna_unknown_idem (v : value) :
  fillna_unknown (fillna_unknown v) = fillna_unknown v.
Proof. now destruct v. Qed.

Lemma to_numeric_coerce_idem (v : value) :
  to_numeric_coerce (to_numeric_coerce v) = to_numeric_coerce v.
Proof.
  destruct v as [|s|x]; cbn; try reflexivity.
  now destruct (str_to_float s).
Qed.

(** *** The loop over [str_cols] *)

Lemma fill_str_cols_spec (df : DataFrame) :
  aligned df ->
  fill_str_cols df
  = mkFrame (columns df)
            (map (cellwise (under fillna_unknown str_cols) (columns df)) (rows df)).
Proof.
  intros Hal. unfold fill_str_cols.
  rewrite guarded_fold by assumption.
  apply map_columns_spec; [apply fillna_unknown_idem | assumption].
Qed.

Lemma fill_str_cols_aligned (df : DataFrame) :
  aligned df -> aligned (fill_str_cols df).
Proof.
  intros Hal. rewrite fill_str_cols_spec by assumption.
  unfold aligned in *. cbn [columns rows].
  rewrite Forall_forall in *. intros row Hin.
  apply in_map_iff in Hin. destruct Hin as [row' [<- Hin']].
  apply cellwise_length. now apply Hal.
Qed.

(** *** The loop over the coordinates *)

Lemma count_mem (c : string) (cols : list string) :
  mem c cols = true -> 1 <= count c cols.
Proof.
  unfold mem, count. induction cols as [|a cols IH]; cbn; [discriminate|].
  destruct (String.eqb c a); cbn; [lia | exact IH].
Qed.

Lemma count_cons (c a : string) (cols : list string) :
  count c (a :: cols) = (if String.eqb c a then 1 else 0) + count c cols.
Proof. unfold count. cbn. now destruct (String.eqb c a). Qed.

Lemma mem_count (c : string) (cols : list string) :
  mem c cols = negb (Nat.eqb (count c cols) 0).
Proof.
  induction cols as [|a cols IH]; [reflexivity|].
  rewrite mem_cons, count_cons, IH.
  now destruct (String.eqb c a).
Qed.

(** When it returns, the loop has coerced every coordinate column. *)
Lemma cast_coordinates_Ok (coords : list string) :
  forall df out,
    aligned df ->
    cast_coordinates coords df = Ok out ->
    out = mkFrame (columns df)
                  (map (cellwise (under to_numeric_coerce coords) (columns df))
                       (rows df)).
Proof.
  intros df out Hal Hcast.
  rewrite <- map_columns_spec by (apply to_numeric_coerce_idem || assumption).
  revert df out Hal Hcast.
  induction coords as [|coord coords IH]; intros df out Hal Hcast.
  - cbn in *. congruence.
  - cbn [cast_coordinates] in Hcast. cbn [fold_left].
    destruct (mem coord (columns df)) eqn:Hmem.
    + destruct (Nat.eqb (count coord (columns df)) 1); [|discriminate].
      apply IH; [now apply map_column_aligned | assumption].
    + pose proof (guarded_map_column to_numeric_coerce coord df Hal) as Hg.
      rewrite Hmem in Hg. rewrite <- Hg. now apply IH.
Qed.

(** It returns when no coordinate label repeats. *)
Lemma cast_coordinates_unique (coords : list string) :
  forall df,
    (forall c, In c coords -> count c (columns df) <= 1) ->
    exists out, cast_coordinates coords df = Ok out.
Proof.
  induction coords as [|coord coords IH]; intros df Huniq.
  - now exists df.
  - cbn [cast_coordinates].
    assert (Hrest : forall c, In c coords -> count c (columns df) <= 1)
      by (intros c Hc; apply Huniq; now right).
    destruct (mem coord (columns df)) eqn:Hmem.
    + apply count_mem in Hmem.
      assert (Hone : count coord (columns df) = 1)
        by (specialize (Huniq coord (or_introl eq_refl)); lia).
      rewrite Hone. cbn [Nat.eqb]. now apply IH.
    + now apply IH.
Qed.

(** It raises when the label of a coordinate repeats. *)
Lemma cast_coordinates_repeated (coords : list string) :
  forall df,
    (exists c, In c coords /\ 2 <= count c (columns df)) ->
    exists msg, cast_coordinates coords df = Raise (TypeError msg).
Proof.
  induction coords as [|coord coords IH]; intros df [c [Hin Hcount]].
  - destruct Hin.
  - cbn [cast_coordinates].
    destruct (mem coord (columns df)) eqn:Hmem.
    + destruct (Nat.eqb (count coord (columns df)) 1) eqn:Hone.
      * apply Nat.eqb_eq in Hone.
        destruct Hin as [->|Hin]; [lia|].
        apply IH. exists c. cbn [columns map_column]. now split.
      * eexists. reflexivity.
    + destruct Hin as [->|Hin].
      * exfalso. unfold mem, count in *.
        clear IH. induction (columns df) as [|a cols IHc]; cbn in *; [lia|].
        destruct (String.eqb c a); cbn in *; [discriminate|]. now apply IHc.
      * apply IH. exists c. now split.
Qed.

(** *** [dropna] *)

Lemma missing_labels_nil (subset cols : list string) :
  missing_labels subset cols = [] <-> (forall c, In c subset -> In c cols).
Proof.
  unfold missing_labels. induction subset as [|a subset IH]; cbn.
  - split; [intros _ c [] | reflexivity].
  - destruct (mem a cols) eqn:Hmem; cbn.
    + rewrite IH. apply mem_In in Hmem. split.
      * intros H c [<-|Hc]; [assumption | now apply H].
      * intros H c Hc. apply H. now right.
    + split; [discriminate|].
      intros H. specialize (H a (or_introl eq_refl)).
      apply mem_In in H. congruence.
Qed.

Lemma missing_labels_In (subset cols : list string) (c : string) :
  In c (missing_labels subset cols) <-> In c subset /\ ~ In c cols.
Proof.
  unfold missing_labels. rewrite filter_In, negb_true_iff.
  rewrite <- (mem_In c cols).
  destruct (mem c cols); intuition congruence.
Qed.

Lemma positions_length (c : string) (cols : list string) :
  forall i, List.length (positions i c cols) = count c cols.
Proof.
  induction cols as [|a cols IH]; intros i; [reflexivity|].
  cbn [positions]. rewrite count_cons.
  destruct (String.eqb c a); cbn [List.length]; now rewrite IH.
Qed.

Lemma check_of_cons (c : string) (subset cols : list string) :
  check_of (c :: subset) cols
  = (if mem c cols then repeat false (count c cols) else [true])
      ++ check_of subset cols.
Proof.
  unfold check_of, get_indexer_for. cbn [flat_map]. rewrite map_app. f_equal.
  rewrite mem_count, <- (positions_length c cols 0).
  assert (Hfound : forall l : list nat,
             map (fun i : option nat =>
                    match i with None => true | Some _ => false end)
                 (map Some l)
             = repeat false (List.length l)).
  { induction l as [|x l IH]; cbn; [reflexivity | now rewrite IH]. }
  destruct (positions 0 c cols) as [|p found]; [reflexivity|].
  now rewrite Hfound.
Qed.

Lemma existsb_repeat_false (n : nat) :
  existsb (fun b : bool => b) (repeat false n) = false.
Proof. induction n as [|n IH]; [reflexivity | exact IH]. Qed.

(** Some label is marked exactly when some label is missing. *)
Lemma check_of_any (subset cols : list string) :
  existsb (fun b : bool => b) (check_of subset cols) = false
  <-> missing_labels subset cols = [].
Proof.
  induction subset as [|c subset IH].
  - split; reflexivity.
  - rewrite check_of_cons, existsb_app. unfold missing_labels. cbn [filter].
    fold (missing_labels subset cols).
    destruct (mem c cols); cbn [negb].
    + now rewrite existsb_repeat_false.
    + cbn. split; discriminate.
Qed.

Lemma check_of_length (subset cols : list string) :
  List.length subset <= List.length (check_of subset cols).
Proof.
  induction subset as [|c subset IH]; [apply Nat.le_0_l|].
  rewrite check_of_cons, length_app. cbn [List.length].
  destruct (mem c cols) eqn:Hmem.
  - apply count_mem in Hmem. rewrite repeat_length. lia.
  - cbn [List.length]. lia.
Qed.

(** The mask is longer than [subset] when a label is carried twice. *)
Lemma check_of_longer (subset cols : list string) :
  (exists c, In c subset /\ 2 <= count c cols) ->
  List.length subset < List.length (check_of subset cols).
Proof.
  induction subset as [|c subset IH]; intros [c' [Hin Htwice]]; [destruct Hin|].
  rewrite check_of_cons, length_app. cbn [List.length].
  pose proof (check_of_length subset cols) as Hrest.
  destruct Hin as [->|Hin].
  - rewrite mem_count.
    destruct (Nat.eqb_spec (count c' cols) 0) as [Hz|_]; [lia|].
    cbn [negb]. rewrite repeat_length. lia.
  - assert (Hlt : List.length subset < List.length (check_of subset cols))
      by (apply IH; now exists c').
    destruct (mem c cols) eqn:Hmem.
    + apply count_mem in Hmem. rewrite repeat_length. lia.
    + cbn [List.length]. lia.
Qed.

(** When no label is carried twice, the mask has one entry for each
    label, and selects the missing ones. *)
Lemma check_of_unique (subset cols : list string) :
  (forall c, In c subset -> count c cols <= 1) ->
  List.length (check_of subset cols) = List.length subset
  /\ masked subset (check_of subset cols) = missing_labels subset cols.
Proof.
  induction subset as [|c subset IH]; intros Huniq; [now split|].
  destruct IH as [Hlen Hmask]; [intros c' Hc'; apply Huniq; now right|].
  rewrite check_of_cons. unfold missing_labels. cbn [filter].
  fold (missing_labels subset cols).
  destruct (mem c cols) eqn:Hmem; cbn [negb].
  - assert (Hone : count c cols = 1).
    { apply count_mem in Hmem.
      specialize (Huniq c (or_introl eq_refl)). lia. }
    rewrite Hone. cbn [repeat app List.length]. split; [now rewrite Hlen|].
    unfold masked in *. cbn [combine filter snd]. exact Hmask.
  - cbn [app List.length]. split; [now rewrite Hlen|].
    unfold masked in *. cbn [combine filter snd map fst]. now rewrite Hmask.
Qed.

Lemma dropna_unfold (subset : list string) (df : DataFrame) :
  dropna subset df
  = if existsb (fun b : bool => b) (check_of subset (columns df)) then
      if Nat.eqb (List.length (check_of subset (columns df)))
                 (List.length subset)
      then Raise (KeyError (masked subset (check_of subset (columns df))))
      else Raise IndexError
    else Ok (mkFrame (columns df)
                     (filter (row_notna (columns df) subset) (rows df))).
Proof. reflexivity. Qed.

(** [dropna] returns when every label is a column... *)
Lemma dropna_present (subset : list string) (df : DataFrame) :
  missing_labels subset (columns df) = [] ->
  dropna subset df
  = Ok (mkFrame (columns df) (filter (row_notna (columns df) subset) (rows df))).
Proof.
  intros Hnone. rewrite dropna_unfold.
  apply check_of_any in Hnone. now rewrite Hnone.
Qed.

(** ... raises the [KeyError] that names the labels not found when no
    label is carried twice... *)
Lemma dropna_missing (subset : list string) (df : DataFrame) :
  missing_labels subset (columns df) <> [] ->
  (forall c, In c subset -> count c (columns df) <= 1) ->
  dropna subset df = Raise (KeyError (missing_labels subset (columns df))).
Proof.
  intros Hsome Huniq. rewrite dropna_unfold.
  destruct (existsb _ (check_of subset (columns df))) eqn:Hany.
  - destruct (check_of_unique subset (columns df) Huniq) as [Hlen Hmask].
    now rewrite Hlen, Nat.eqb_refl, Hmask.
  - apply check_of_any in Hany. contradiction.
Qed.

(** ... and an [IndexError] when one is. *)
Lemma dropna_repeated (subset : list string) (df : DataFrame) :
  missing_labels subset (columns df) <> [] ->
  (exists c, In c subset /\ 2 <= count c (columns df)) ->
  dropna subset df = Raise IndexError.
Proof.
  intros Hsome Hrep. rewrite dropna_unfold.
  destruct (existsb _ (check_of subset (columns df))) eqn:Hany.
  - apply check_of_longer in Hrep.
    destruct (Nat.eqb_spec (List.length (check_of subset (columns df)))
                           (List.length subset)) as [Heq|_]; [lia|].
    reflexivity.
  - apply check_of_any in Hany. contradiction.
Qed.

Lemma dropna_Ok (subset : list string) (df out : DataFrame) :
  dropna subset df = Ok out ->
  out = mkFrame (columns df) (filter (row_notna (columns df) subset) (rows df))
  /\ forall c, In c subset -> In c (columns df).
Proof.
  rewrite dropna_unfold. intros H.
  destruct (existsb _ (check_of subset (columns df))) eqn:Hany.
  - destruct (Nat.eqb _ _); discriminate.
  - apply check_of_any in Hany.
    split; [congruence | now apply missing_labels_nil].
Qed.

Lemma row_notna_spec (cols subset : list string) (row : list value) :
  row_notna cols subset row = true
  <-> (forall c v, In (c, v) (combine cols row) -> In c subset -> v <> VNull).
Proof.
  unfold row_notna. rewrite forallb_forall. split.
  - intros H c v Hin Hc Hv. specialize (H (c, v) Hin). cbn in H.
    apply mem_In in Hc. rewrite Hc, Hv in H. discriminate.
  - intros H [c v] Hin. cbn.
    destruct (mem c subset) eqn:Hmem; [|reflexivity].
    apply mem_In in Hmem. specialize (H c v Hin Hmem).
    now destruct v.
Qed.

(** *** [clean_and_transform], step by step *)

Lemma renamed_aligned (data : list record) :
  aligned (set_columns (map normalize (columns (frame_of_records data)))
                       (frame_of_records data)).
Proof.
  pose proof (frame_of_records_aligned data) as Hal.
  unfold aligned, set_columns in *. cbn [columns rows].
  now rewrite length_map.
Qed.

Lemma filter_aligned (cols : list string) (keep : list value -> bool)
    (rws : list (list value)) :
  aligned (mkFrame cols rws) -> aligned (mkFrame cols (filter keep rws)).
Proof.
  unfold aligned. cbn [columns rows]. rewrite !Forall_forall.
  intros H row Hin. apply filter_In in Hin. now apply H.
Qed.

Lemma finish_cell_under (c : string) (v : value) :
  under to_numeric_coerce coordinates c (under fillna_unknown str_cols c v)
  = finish_cell c v.
Proof. reflexivity. Qed.

(** The frame [clean_and_transform] returns, when it returns one for a
    frame that is not empty. *)
Lemma clean_and_transform_Ok (data : list record) (out : DataFrame) :
  empty (frame_of_records data) = false ->
  clean_and_transform data = Ok out ->
  out = mkFrame (labels_of data)
                (map (cleaned_row data) (filter (passes_dropna data) data))
  /\ (forall c, In c required -> In c (labels_of data)).
Proof.
  intros Hempty Hclean. unfold clean_and_transform in Hclean.
  rewrite Hempty in Hclean.
  destruct (dropna _ _) as [kept|e] eqn:Hdrop; [|discriminate].
  apply dropna_Ok in Hdrop. destruct Hdrop as [-> Hreq].
  cbn [columns rows set_columns] in *.
  split; [|exact Hreq].
  assert (Hal : aligned (mkFrame (labels_of data)
             (filter (row_notna (labels_of data) required)
                     (rows (frame_of_records data)))))
    by (apply filter_aligned, renamed_aligned).
  apply cast_coordinates_Ok in Hclean; [|now apply fill_str_cols_aligned].
  rewrite fill_str_cols_spec in Hclean by assumption.
  cbn [columns rows] in Hclean. subst out. f_equal.
  rewrite map_map, frame_of_records_rows.
  unfold passes_dropna, cleaned_row.
  rewrite filter_map_swap, map_map.
  apply map_ext. intros r.
  rewrite cellwise_cellwise. apply cellwise_ext.
  intros c v _. apply finish_cell_under.
Qed.

(** It returns one when the frame has the two required columns and no
    coordinate label repeats. *)
Lemma clean_and_transform_returns (data : list record) :
  empty (frame_of_records data) = false ->
  (forall c, In c required -> In c (labels_of data)) ->
  (forall c, In c coordinates -> count c (labels_of data) <= 1) ->
  clean_and_transform data
  = Ok (mkFrame (labels_of data)
                (map (cleaned_row data) (filter (passes_dropna data) data))).
Proof.
  intros Hempty Hreq Huniq.
  assert (Hex : exists out, clean_and_transform data = Ok out).
  { unfold clean_and_transform. rewrite Hempty.
    rewrite dropna_present
      by (cbn [columns set_columns]; now apply (missing_labels_nil required)).
    cbn [columns rows set_columns]. fold (labels_of data).
    apply cast_coordinates_unique.
    intros c Hc. rewrite fill_str_cols_spec
      by (apply filter_aligned, renamed_aligned).
    cbn [columns]. now apply Huniq. }
  destruct Hex as [out Hout]. rewrite Hout. f_equal.
  now apply clean_and_transform_Ok.
Qed.

(** *** Cells under a label *)

Lemma In_cells_under (c : string) (cols : list string) (row : list value)
    (v : value) :
  In v (cells_under c cols row) <-> In (c, v) (combine cols row).
Proof.
  unfold cells_under. rewrite in_map_iff. split.
  - intros [[c' v'] [Heq Hin]]. cbn in Heq. subst v'.
    apply filter_In in Hin. destruct Hin as [Hin Hc]. cbn in Hc.
    apply String.eqb_eq in Hc. now subst.
  - intros Hin. exists (c, v). split; [reflexivity|].
    apply filter_In. split; [assumption|]. cbn. apply String.eqb_refl.
Qed.

Lemma cells_under_cellwise (g : string -> value -> value) (c : string)
    (cols : list string) (row : list value) :
  cells_under c cols (cellwise g cols row) = map (g c) (cells_under c cols row).
Proof.
  unfold cells_under. rewrite combine_cellwise, filter_map_swap, !map_map.
  cbn [fst snd]. apply map_ext_in. intros [c' v] Hin.
  apply filter_In in Hin. destruct Hin as [_ Hc]. cbn in *.
  apply String.eqb_eq in Hc. now subst.
Qed.


(** A frame is empty when there is no record, or no record has a field. *)
Lemma first_seen_nil (ks seen : list string) :
  first_seen seen ks = [] <-> (forall k, In k ks -> In k seen).
Proof.
  revert seen. induction ks as [|k ks IH]; intros seen; cbn.
  - split; [intros _ k [] | reflexivity].
  - destruct (mem k seen) eqn:Hmem.
    + rewrite IH. apply mem_In in Hmem. split.
      * intros H k' [<-|Hk']; [assumption | now apply H].
      * intros H k' Hk'. apply H. now right.
    + split; [discriminate|]. intros H.
      specialize (H k (or_introl eq_refl)). apply mem_In in H. congruence.
Qed.

Lemma empty_frame_of_records (data : list record) :
  empty (frame_of_records data) = true
  <-> data = [] \/ (forall r, In r data -> r = []).
Proof.
  unfold empty, frame_of_records. cbn [columns rows].
  rewrite orb_true_iff, !Nat.eqb_eq, !length_zero_iff_nil, first_seen_nil.
  split.
  - intros [H|H].
    + right. intros r Hr. destruct r as [|[k v] r]; [reflexivity|].
      destruct (H k). apply in_flat_map. exists ((k, v) :: r).
      split; [assumption | now left].
    + left. now apply map_eq_nil in H.
  - intros [->|H]; [now right|]. left.
    intros k Hk. apply in_flat_map in Hk. destruct Hk as [r [Hr Hk]].
    rewrite (H r Hr) in Hk. destruct Hk.
Qed.

Lemma Forall2_map_r {A B : Type} (P : A -> B -> Prop) (f : A -> B) (l : list A) :
  (forall x, In x l -> P x (f x)) -> Forall2 P l (map f l).
Proof.
  induction l as [|x l IH]; intros H; cbn; constructor.
  - apply H. now left.
  - apply IH. intros y Hy. apply H. now right.
Qed.

(** *** From the frame to the records *)

(** On a record whose keys are pairwise distinct, as those of a dict
    are, [dict_get] finds the value bound to the key. *)
Lemma dict_get_In (r : record) (k : string) (v : option string) :
  NoDup (map fst r) ->
  dict_get r k = Some v <-> In (k, v) r.
Proof.
  induction r as [|[k' v'] r IH]; intros Hkeys; cbn [dict_get In].
  - split; [discriminate | intros []].
  - inversion Hkeys as [|? ? Hnew Hrest]; subst.
    destruct (String.eqb_spec k k') as [->|Hne].
    + split; [intros H; left; congruence|].
      intros [H|H]; [congruence|].
      exfalso. apply Hnew. apply (in_map fst) in H. exact H.
    + rewrite (IH Hrest). split; [now right|].
      intros [H|H]; [congruence | assumption].
Qed.

Lemma field_of_In (r : record) (k s : string) :
  NoDup (map fst r) ->
  field_of r k = Some s <-> In (k, Some s) r.
Proof.
  intros Hkeys. rewrite <- (dict_get_In r k (Some s) Hkeys).
  unfold field_of. destruct (dict_get r k) as [[s'|]|]; split; congruence.
Qed.

Lemma In_first_seen (ks : list string) :
  forall seen k, In k (first_seen seen ks) <-> In k ks /\ ~ In k seen.
Proof.
  induction ks as [|a ks IH]; intros seen k; cbn [first_seen].
  - cbn. tauto.
  - destruct (mem a seen) eqn:Hmem.
    + apply mem_In in Hmem. rewrite IH. cbn [In].
      split; [tauto|]. intros [[->|H] Hnot]; [contradiction | tauto].
    + assert (Hnot : ~ In a seen)
        by (intros H; apply mem_In in H; congruence).
      cbn [In]. rewrite IH. cbn [In].
      destruct (string_dec a k) as [->|Hne]; [tauto|].
      split.
      * intros [H|[H1 H2]]; [contradiction|]. split; [now right|]. tauto.
      * intros [[H|H] Hk]; [contradiction|]. right. split; [assumption|].
        intros [H'|H']; [contradiction | contradiction].
Qed.

Lemma NoDup_first_seen (ks : list string) :
  forall seen, NoDup (first_seen seen ks).
Proof.
  induction ks as [|a ks IH]; intros seen; cbn [first_seen]; [constructor|].
  destruct (mem a seen); [apply IH|].
  constructor; [|apply IH].
  rewrite In_first_seen. intros [_ H]. apply H. now left.
Qed.

(** The columns that read [c] are the names of the field [c]. *)
Lemma named_columns (data : list record) (c : string) :
  Permutation
    (filter (fun k => String.eqb (normalize k) c)
            (columns (frame_of_records data)))
    (names_of data c).
Proof.
  apply NoDup_Permutation.
  - apply NoDup_filter, NoDup_first_seen.
  - apply NoDup_nodup.
  - intros k. unfold names_of. rewrite nodup_In, !filter_In.
    unfold frame_of_records. cbn [columns]. rewrite In_first_seen.
    unfold field_names. cbn [In]. tauto.
Qed.

Lemma count_map (c : string) (f : string -> string) (l : list string) :
  count c (map f l)
  = List.length (filter (fun k => String.eqb (f k) c) l).
Proof.
  unfold count. rewrite filter_map_swap, length_map. f_equal.
  apply filter_ext. intros k. apply String.eqb_sym.
Qed.

Lemma count_labels (data : list record) (c : string) :
  count c (labels_of data) = List.length (names_of data c).
Proof.
  unfold labels_of. rewrite count_map.
  apply Permutation_length, named_columns.
Qed.

Lemma labels_of_named (data : list record) (c : string) :
  In c (labels_of data) <-> names_of data c <> [].
Proof.
  rewrite <- mem_In, mem_count, count_labels, negb_true_iff, Nat.eqb_neq.
  now rewrite length_zero_iff_nil.
Qed.

Lemma missing_absent (data : list record) :
  missing_labels required (labels_of data) = absent_required data.
Proof.
  unfold missing_labels, absent_required. apply filter_ext. intros c.
  rewrite mem_count, count_labels, negb_involutive.
  now destruct (names_of data c).
Qed.

Lemma cells_under_map (c : string) (g : string -> value) (keys : list string) :
  cells_under c (map normalize keys) (map g keys)
  = map g (filter (fun k => String.eqb (normalize k) c) keys).
Proof.
  unfold cells_under.
  induction keys as [|k keys IH]; [reflexivity|].
  cbn [map combine filter fst].
  destruct (String.eqb (normalize k) c); cbn [map snd]; now rewrite IH.
Qed.

(** Under a field of one name, the row of a record has the value the
    record has under that name. *)
Lemma cells_of_named (data : list record) (r : record) (c k : string) :
  names_of data c = [k] ->
  cells_under c (labels_of data) (row_of data r) = [cell_of r k].
Proof.
  intros Hname. unfold labels_of, row_of. rewrite cells_under_map.
  pose proof (named_columns data c) as Hperm. rewrite Hname in Hperm.
  apply Permutation_sym, Permutation_length_1_inv in Hperm.
  now rewrite Hperm.
Qed.

Lemma cell_of_field (r : record) (k : string) :
  cell_of r k = value_of (field_of r k).
Proof.
  unfold cell_of, field_of. now destruct (dict_get r k) as [[s|]|].
Qed.

Lemma cleaned_cells (data : list record) (r : record) (c k : string) :
  names_of data c = [k] ->
  cells_under c (labels_of data) (cleaned_row data r)
  = [finish_cell c (value_of (field_of r k))].
Proof.
  intros Hname. unfold cleaned_row.
  rewrite cells_under_cellwise, (cells_of_named data r c k Hname).
  cbn [map]. now rewrite cell_of_field.
Qed.

(** When the required fields have one name each, the filter of [dropna]
    keeps the records that have both, neither null. *)
Lemma passes_dropna_complete (data : list record) (kt ks : string) (r : record) :
  names_of data "brewery_type" = [kt] ->
  names_of data "state" = [ks] ->
  passes_dropna data r = complete kt ks r.
Proof.
  intros Ht Hs. apply eq_true_iff_eq. unfold passes_dropna, complete.
  rewrite row_notna_spec, andb_true_iff. split.
  - intros H. split.
    + assert (Hc : cell_of r kt <> VNull).
      { apply (H "brewery_type"); [|cbn; auto].
        apply In_cells_under. rewrite (cells_of_named data r _ kt Ht).
        now left. }
      rewrite cell_of_field in Hc. now destruct (field_of r kt).
    + assert (Hc : cell_of r ks <> VNull).
      { apply (H "state"); [|cbn; auto].
        apply In_cells_under. rewrite (cells_of_named data r _ ks Hs).
        now left. }
      rewrite cell_of_field in Hc. now destruct (field_of r ks).
  - intros [Hkt Hks] c v Hin [<-|[<-|[]]]; apply In_cells_under in Hin.
    + rewrite (cells_of_named data r _ kt Ht) in Hin.
      destruct Hin as [<-|[]]. rewrite cell_of_field.
      now destruct (field_of r kt).
    + rewrite (cells_of_named data r _ ks Hs) in Hin.
      destruct Hin as [<-|[]]. rewrite cell_of_field.
      now destruct (field_of r ks).
Qed.

Lemma empty_frame_names (data : list record) :
  empty (frame_of_records data) = false <-> field_names data <> [].
Proof.
  rewrite <- not_true_iff_false, empty_frame_of_records. unfold field_names.
  split.
  - intros H Hnil. apply H. right. intros r Hr.
    destruct r as [|[k v] r]; [reflexivity|].
    assert (Hin : In k (flat_map (map fst) data))
      by (apply in_flat_map; exists ((k, v) :: r); split; [assumption | now left]).
    rewrite Hnil in Hin. destruct Hin.
  - intros H [->|Hall]; [now apply H|]. apply H.
    destruct (flat_map (map fst) data) as [|k ks] eqn:Hks; [reflexivity|].
    assert (Hin : In k (flat_map (map fst) data)) by (rewrite Hks; now left).
    apply in_flat_map in Hin. destruct Hin as [r [Hr Hk]].
    rewrite (Hall r Hr) in Hk. destruct Hk.
Qed.

Lemma named_not_empty (data : list record) (c : string) :
  names_of data c <> [] -> empty (frame_of_records data) = false.
Proof.
  intros Hname. apply empty_frame_names. intros Hnil.
  apply Hname. unfold names_of. now rewrite Hnil.
Qed.

(** The hypotheses the properties of the frame returned share: the
    required fields have one name each, and a coordinate has one at
    most. *)
Lemma clean_and_transform_named (data : list record) (kt ks : string) :
  names_of data "brewery_type" = [kt] ->
  names_of data "state" = [ks] ->
  List.length (names_of data "latitude") <= 1 ->
  List.length (names_of data "longitude") <= 1 ->
  clean_and_transform data
  = Ok (mkFrame (labels_of data)
                (map (cleaned_row data) (filter (complete kt ks) data))).
Proof.
  intros Ht Hs Hlat Hlon.
  rewrite clean_and_transform_returns.
  - do 3 f_equal. apply filter_ext. intros r.
    now apply passes_dropna_complete.
  - apply (named_not_empty data "brewery_type"). congruence.
  - intros c [<-|[<-|[]]]; apply labels_of_named; congruence.
  - intros c [<-|[<-|[]]]; now rewrite count_labels.
Qed.

(** The four ways [clean_and_transform] ends on records that carry a
    field. *)
Lemma clean_and_transform_cases (data : list record) :
  field_names data <> [] ->
  (absent_required data <> []
   /\ (forall c, In c required -> List.length (names_of data c) <= 1)
   /\ clean_and_transform data = Raise (KeyError (absent_required data)))
  \/ (absent_required data <> []
      /\ (exists c, In c required /\ 2 <= List.length (names_of data c))
      /\ clean_and_transform data = Raise IndexError)
  \/ (absent_required data = []
      /\ (exists c, In c coordinates /\ 2 <= List.length (names_of data c))
      /\ exists msg, clean_and_transform data = Raise (TypeError msg))
  \/ (absent_required data = []
      /\ (forall c, In c coordinates -> List.length (names_of data c) <= 1)
      /\ exists out, clean_and_transform data = Ok out).
Proof.
  intros Hnames. apply empty_frame_names in Hnames.
  assert (Hone : forall l : list string,
             (forall c', In c' l -> List.length (names_of data c') <= 1)
             \/ exists c', In c' l /\ 2 <= List.length (names_of data c')).
  { induction l as [|a l IH]; [left; intros c' []|].
    destruct IH as [Hall|[c' [Hin Htwo]]].
    - destruct (le_lt_dec (List.length (names_of data a)) 1) as [Hle|Hgt].
      + left. intros c' [<-|Hc']; [assumption | now apply Hall].
      + right. exists a. split; [now left | lia].
    - right. exists c'. split; [now right | assumption]. }
  destruct (absent_required data) as [|m ms] eqn:Habsent.
  - right. right.
    assert (Hreq : forall c, In c required -> In c (labels_of data)).
    { apply missing_labels_nil. now rewrite missing_absent. }
    destruct (Hone coordinates) as [Huniq|Hrep].
    + right. split; [reflexivity|]. split; [assumption|].
      eexists. apply clean_and_transform_returns; try assumption.
      intros c Hc. rewrite count_labels. now apply Huniq.
    + left. split; [reflexivity|]. split; [assumption|].
      unfold clean_and_transform. rewrite Hnames.
      rewrite dropna_present
        by (cbn [columns set_columns]; now apply (missing_labels_nil required)).
      apply cast_coordinates_repeated.
      rewrite fill_str_cols_spec by (apply filter_aligned, renamed_aligned).
      cbn [columns set_columns]. fold (labels_of data).
      destruct Hrep as [c [Hc Htwo]]. exists c. split; [assumption|].
      now rewrite count_labels.
  - assert (Hmiss : missing_labels required
                      (columns (set_columns (labels_of data)
                                            (frame_of_records data)))
                    <> [])
      by (cbn [columns set_columns]; rewrite missing_absent, Habsent;
          discriminate).
    destruct (Hone required) as [Huniq|Hrep].
    + left. split; [discriminate|]. split; [assumption|].
      unfold clean_and_transform. rewrite Hnames.
      fold (labels_of data).
      rewrite dropna_missing; try assumption.
      * cbn [columns set_columns]. now rewrite missing_absent, Habsent.
      * intros c Hc. cbn [columns set_columns]. rewrite count_labels.
        now apply Huniq.
    + right. left. split; [discriminate|]. split; [assumption|].
      unfold clean_and_transform. rewrite Hnames.
      fold (labels_of data).
      rewrite dropna_repeated; try assumption; [reflexivity|].
      destruct Hrep as [c [Hc Htwo]]. exists c. split; [assumption|].
      cbn [columns set_columns]. now rewrite count_labels.
Qed.

Lemma absent_required_In (data : list record) (c : string) :
  In c (absent_required data) <-> In c required /\ names_of data c = [].
Proof.
  unfold absent_required. rewrite filter_In.
  destruct (names_of data c); intuition congruence.
Qed.

(** *** The claims on [clean_and_transform] *)

(** C8.  On the empty list [clean_and_transform] returns the empty frame,
    raising nothing: the frame has neither a row nor a column, and the
    required columns are never looked up. *)
Theorem clean_and_transform_empty_input :
  clean_and_transform [] = Ok (mkFrame [] [])
  /\ empty (mkFrame [] []) = true
  /\ raises (clean_and_transform []) = false.
Proof. repeat split. Qed.


(** C10, as amended.  When some record carries a field, and no record
    carries a brewery_type or none carries a state,
    [clean_and_transform] raises: the [KeyError] of [dropna], with the
    required fields that are not carried, when neither required field is
    carried under two names, and the [IndexError] of numpy when one
    is. *)
Theorem clean_raises_without_required_column (data : list record) :
  field_names data <> [] ->
  names_of data "brewery_type" = [] \/ names_of data "state" = [] ->
  raises (clean_and_transform data) = true
  /\ (List.length (names_of data "brewery_type") <= 1 ->
      List.length (names_of data "state") <= 1 ->
      clean_and_transform data = Raise (KeyError (absent_required data)))
  /\ (2 <= List.length (names_of data "brewery_type")
      \/ 2 <= List.length (names_of data "state") ->
      clean_and_transform data = Raise IndexError)
  /\ (forall c,
        In c (absent_required data)
        <-> (c = "brewery_type" \/ c = "state") /\ names_of data c = []).
Proof.
  intros Hnames Habsent.
  assert (Hlist : forall c,
             In c (absent_required data)
             <-> (c = "brewery_type" \/ c = "state") /\ names_of data c = []).
  { intros c. rewrite absent_required_In. cbn [required In].
    intuition congruence. }
  assert (Hne : absent_required data <> []).
  { intros Hnil.
    destruct Habsent as [H|H];
      [assert (Hin : In "brewery_type" (absent_required data))
         by (apply Hlist; auto)
      |assert (Hin : In "state" (absent_required data))
         by (apply Hlist; auto)];
      rewrite Hnil in Hin; destruct Hin. }
  destruct (clean_and_transform_cases data Hnames)
    as [[_ [Huniq Hrun]]|[[_ [Hrep Hrun]]|[[Hnil _]|[Hnil _]]]];
    try contradiction; rewrite Hrun.
  - split; [reflexivity|]. split; [reflexivity|].
    split; [|exact Hlist].
    intros [Htwo|Htwo];
      [specialize (Huniq "brewery_type") | specialize (Huniq "state")];
      cbn in Huniq; assert (Hle := Huniq ltac:(auto)); lia.
  - split; [reflexivity|]. split; [|split; [reflexivity | exact Hlist]].
    intros Ht Hs. destruct Hrep as [c [[<-|[<-|[]]] Htwo]]; lia.
Qed.


End SilverFacts.

(** *** [clean_and_transform] on examples *)


(** Two records with a type and a state each, which write the name of
    the type differently: the frame has two columns that read
    brewery_type, each record has a null under one of them, and both are
    dropped. *)
Lemma clean_drops_records_named_differently :
  Forall (fun r => notnull (field_of r "brewery_type") = true
                   \/ notnull (field_of r "Brewery_Type") = true)
         mixed_case_records
  /\ Forall (fun r => notnull (field_of r "state") = true) mixed_case_records
  /\ @names_of ascii_runtime mixed_case_records "brewery_type"
     = ["brewery_type"; "Brewery_Type"]
  /\ @clean_and_transform ascii_runtime mixed_case_records
     = Ok (mkFrame ["id"; "brewery_type"; "state"; "brewery_type"] []).
Proof.
  split; [|split; [|split]]; try reflexivity.
  - constructor; [left; reflexivity|].
    constructor; [right; reflexivity|]. constructor.
  - repeat constructor.
Qed.


(** C10, counterexample.  A list of one record that carries no field is
    not empty and has no brewery_type; [clean_and_transform] returns its
    frame, one row without a column, and raises nothing. *)
Lemma clean_returns_a_record_without_fields :
  [no_fields] <> []
  /\ @names_of ascii_runtime [no_fields] "brewery_type" = []
  /\ @clean_and_transform ascii_runtime [no_fields] = Ok (mkFrame [] [[]])
  /\ raises (@clean_and_transform ascii_runtime [no_fields]) = false.
Proof.
  split; [discriminate|]. split; [reflexivity|]. split; reflexivity.
Qed.

Lemma clean_raises_without_required_column_example :
  raises (@clean_and_transform ascii_runtime untyped_records) = true
  /\ (List.length (@names_of ascii_runtime untyped_records "brewery_type") <= 1 ->
      List.length (@names_of ascii_runtime untyped_records "state") <= 1 ->
      @clean_and_transform ascii_runtime untyped_records
      = Raise (KeyError (@absent_required ascii_runtime untyped_records)))
  /\ (2 <= List.length (@names_of ascii_runtime untyped_records "brewery_type")
      \/ 2 <= List.length (@names_of ascii_runtime untyped_records "state") ->
      @clean_and_transform ascii_runtime untyped_records = Raise IndexError)
  /\ (forall c,
        In c (@absent_required ascii_runtime untyped_records)
        <-> (c = "brewery_type" \/ c = "state")
            /\ @names_of ascii_runtime untyped_records c = []).
Proof.
  apply (@clean_raises_without_required_column ascii_runtime untyped_records).
  - discriminate.
  - left. reflexivity.
Defined.

(** A record without a state, whose type goes under two names: the
    error is the [IndexError]; a record without a type: the [KeyError]. *)
Lemma clean_raises_index_error :
  @names_of ascii_runtime twice_typed "state" = []
  /\ @names_of ascii_runtime twice_typed "brewery_type"
     = ["brewery_type"; "Brewery_Type"]
  /\ @clean_and_transform ascii_runtime twice_typed = Raise IndexError
  /\ @clean_and_transform ascii_runtime untyped_records
     = Raise (KeyError ["brewery_type"]).
Proof. repeat split. Qed.



(** ** Gold *)

(** *** The orders of [groupby] and of [sort_values] *)

Lemma lex_Eq (c1 c2 : comparison) : lex c1 c2 = Eq <-> c1 = Eq /\ c2 = Eq.
Proof. destruct c1, c2; cbn; intuition congruence. Qed.

Lemma lex_Lt (c1 c2 : comparison) :
  lex c1 c2 = Lt <-> c1 = Lt \/ (c1 = Eq /\ c2 = Lt).
Proof. destruct c1, c2; cbn; intuition congruence. Qed.

Lemma lex_CompOpp (c1 c2 : comparison) :
  CompOpp (lex c1 c2) = lex (CompOpp c1) (CompOpp c2).
Proof. now destruct c1. Qed.

#[export] Instance string_order : Order String.compare.
Proof.
  split.
  - apply String_as_OT.cmp_eq.
  - apply String_as_OT.cmp_antisym.
  - intros a b c Hab Hbc.
    apply String_as_OT.cmp_lt in Hab. apply String_as_OT.cmp_lt in Hbc.
    apply String_as_OT.cmp_lt. now apply (String_as_OT.lt_trans a b c).
Qed.

#[export] Instance nullable_order : Order compare_nullable.
Proof.
  split.
  - intros [a|] [b|]; cbn; try (split; congruence).
    rewrite (order_eq (cmp := String.compare)). split; congruence.
  - intros [a|] [b|]; cbn; try reflexivity. apply order_antisym.
  - intros [a|] [b|] [c|]; cbn; try congruence. apply order_trans.
Qed.

#[export] Instance pair_order {A B : Type} (cA : A -> A -> comparison)
    (cB : B -> B -> comparison) {HA : Order cA} {HB : Order cB} :
  Order (compare_pair cA cB).
Proof.
  split.
  - intros [a1 b1] [a2 b2]. unfold compare_pair. cbn [fst snd].
    rewrite lex_Eq, (order_eq (cmp := cA)), (order_eq (cmp := cB)).
    split; [intros [-> ->]; reflexivity | intros H; now inversion H].
  - intros [a1 b1] [a2 b2]. unfold compare_pair. cbn [fst snd].
    now rewrite lex_CompOpp, <- (order_antisym (cmp := cA)),
      <- (order_antisym (cmp := cB)).
  - intros [a1 b1] [a2 b2] [a3 b3]. unfold compare_pair. cbn [fst snd].
    rewrite !lex_Lt.
    intros [H12|[H12 K12]] [H23|[H23 K23]].
    + left. now apply (order_trans a1 a2 a3).
    + left. apply order_eq in H23. now subst a3.
    + left. apply order_eq in H12. now subst a2.
    + right. apply order_eq in H12. apply order_eq in H23. subst a2 a3.
      split; [now apply order_eq | now apply (order_trans b1 b2 b3)].
Qed.

Lemma key_eqb_eq (k1 k2 : group_key) : key_eqb k1 k2 = true <-> k1 = k2.
Proof.
  destruct k1 as [t1 [c1 s1]], k2 as [t2 [c2 s2]]. unfold key_eqb. cbn [fst snd].
  rewrite !andb_true_iff, !String.eqb_eq.
  split; [intros [[-> ->] ->]; reflexivity | intros H; now inversion H].
Qed.

Lemma key_eqb_refl (k : group_key) : key_eqb k k = true.
Proof. now apply key_eqb_eq. Qed.

(** *** Sorting *)

Section SortFacts.

Context {A K : Type} (c : K -> K -> comparison) {Hc : Order c} (f : A -> K).

Lemma insert_sorted_perm (cmp : A -> A -> comparison) (x : A) (l : list A) :
  Permutation (insert_sorted cmp x l) (x :: l).
Proof.
  induction l as [|y l IH]; cbn; [reflexivity|].
  destruct (is_le (cmp x y)); [reflexivity|].
  rewrite IH. apply perm_swap.
Qed.

Lemma sort_by_perm (cmp : A -> A -> comparison) (l : list A) :
  Permutation (sort_by cmp l) l.
Proof.
  induction l as [|x l IH]; cbn; [reflexivity|].
  rewrite insert_sorted_perm. now constructor.
Qed.

Lemma order_le_trans (a b d : K) :
  is_le (c a b) = true -> is_le (c b d) = true -> is_le (c a d) = true.
Proof.
  destruct (c a b) eqn:Hab; cbn; try discriminate; intros _.
  - apply order_eq in Hab. now subst b.
  - destruct (c b d) eqn:Hbd; cbn; try discriminate; intros _.
    + apply order_eq in Hbd. subst d. now rewrite Hab.
    + now rewrite (order_trans a b d Hab Hbd).
Qed.

Lemma order_le_total (a b : K) :
  is_le (c a b) = false -> is_le (c b a) = true.
Proof.
  rewrite (order_antisym b a). now destruct (c a b).
Qed.

Lemma insert_sorted_sorted (x : A) (l : list A) :
  StronglySorted (fun a b => is_le (compare_on c f a b) = true) l ->
  StronglySorted (fun a b => is_le (compare_on c f a b) = true)
                 (insert_sorted (compare_on c f) x l).
Proof.
  induction 1 as [|y l Hsorted IH Hall]; cbn.
  - repeat constructor.
  - destruct (is_le (compare_on c f x y)) eqn:Hxy.
    + constructor; [now constructor|].
      constructor; [assumption|].
      eapply Forall_impl; [|exact Hall].
      intros z Hyz. now apply (order_le_trans (f x) (f y) (f z)).
    + constructor; [assumption|].
      eapply Permutation_Forall.
      * symmetry. apply insert_sorted_perm.
      * constructor; [now apply order_le_total | assumption].
Qed.

Lemma sort_by_sorted (l : list A) :
  StronglySorted (fun a b => is_le (compare_on c f a b) = true)
                 (sort_by (compare_on c f) l).
Proof.
  induction l as [|x l IH]; cbn; [constructor|].
  now apply insert_sorted_sorted.
Qed.

(** Sorted rows whose keys differ are in strictly ascending order. *)
Lemma sorted_strict (l : list A) :
  StronglySorted (fun a b => is_le (compare_on c f a b) = true) l ->
  NoDup (map f l) ->
  StronglySorted (fun a b => compare_on c f a b = Lt) l.
Proof.
  induction 1 as [|x l Hsorted IH Hall]; intros Hnodup; [constructor|].
  cbn in Hnodup. inversion Hnodup as [|? ? Hnotin Hnodup']; subst.
  constructor; [now apply IH|].
  rewrite Forall_forall in *. intros y Hy.
  specialize (Hall y Hy). unfold compare_on in *.
  destruct (c (f x) (f y)) eqn:Hxy; try reflexivity; try discriminate.
  apply order_eq in Hxy. exfalso. apply Hnotin. rewrite Hxy. now apply in_map.
Qed.

End SortFacts.

(** *** The groups *)

Lemma In_distinct (k : group_key) (l : list group_key) :
  In k (distinct l) <-> In k l.
Proof.
  induction l as [|a l IH]; cbn; [reflexivity|].
  rewrite filter_In, IH, negb_true_iff. split.
  - intros [->|[H _]]; auto.
  - intros [->|H]; [now left|].
    destruct (key_eqb a k) eqn:Hak; [left; now apply key_eqb_eq | right; auto].
Qed.

Lemma NoDup_distinct (l : list group_key) : NoDup (distinct l).
Proof.
  induction l as [|a l IH]; cbn; constructor.
  - intros H. apply filter_In in H. destruct H as [_ H].
    rewrite key_eqb_refl in H. discriminate.
  - now apply NoDup_filter.
Qed.

Lemma In_keys_of (k : group_key) (df : list silver_row) :
  In k (keys_of df) <-> exists r, In r df /\ key_of r = Some k.
Proof.
  induction df as [|r df IH]; cbn.
  - split; [intros [] | intros [r [[] _]]].
  - destruct (key_of r) as [k'|] eqn:Hkey; cbn; rewrite IH; split.
    + intros [->|[r' [Hin H]]]; [exists r; auto | exists r'; auto].
    + intros [r' [[<-|Hin] H]]; [left; congruence | right; exists r'; auto].
    + intros [r' [Hin H]]. exists r'. auto.
    + intros [r' [[<-|Hin] H]]; [congruence | exists r'; auto].
Qed.

Lemma in_group_key (k : group_key) (r : silver_row) :
  in_group k r = true <-> key_of r = Some k.
Proof.
  unfold in_group. destruct (key_of r) as [k'|].
  - rewrite key_eqb_eq. split; congruence.
  - split; discriminate.
Qed.

Lemma cleaned_key (r : silver_row) :
  cleaned r = match key_of r with Some _ => true | None => false end.
Proof.
  unfold cleaned, key_of.
  now destruct (row_brewery_type r), (row_country r), (row_state r).
Qed.

Lemma groups_perm (df : list silver_row) :
  Permutation (groups df) (distinct (keys_of df)).
Proof. apply sort_by_perm. Qed.

Lemma In_groups (k : group_key) (df : list silver_row) :
  In k (groups df) <-> In k (keys_of df).
Proof.
  split; intros H.
  - apply In_distinct. now apply (Permutation_in _ (groups_perm df)).
  - apply (Permutation_in _ (Permutation_sym (groups_perm df))).
    now apply In_distinct.
Qed.

Lemma NoDup_groups (df : list silver_row) : NoDup (groups df).
Proof.
  apply (Permutation_NoDup (l := distinct (keys_of df))).
  - symmetry. apply groups_perm.
  - apply NoDup_distinct.
Qed.

Lemma NoDup_map_injective {A B : Type} (g : A -> B) (l : list A) :
  (forall x y, g x = g y -> x = y) -> NoDup l -> NoDup (map g l).
Proof.
  intros Hinj. induction 1 as [|x l Hnotin Hnodup IH]; cbn; constructor.
  - intros Hin. apply in_map_iff in Hin. destruct Hin as [y [Heq Hy]].
    apply Hinj in Heq. now subst y.
  - exact IH.
Qed.

(** *** Counting *)

Lemma total_count_perm (l l' : list gold_row) :
  Permutation l l' -> total_count l = total_count l'.
Proof.
  unfold total_count.
  induction 1 as [|x l l' Hperm IH|x y l|l1 l2 l3 H12 IH12 H23 IH23]; cbn;
    lia.
Qed.

Lemma total_count_groups (n : group_key -> Z) (ks : list group_key) :
  total_count (map (fun k => gold_of k (n k)) ks) = fold_right Z.add 0%Z (map n ks).
Proof.
  unfold total_count. rewrite map_map. reflexivity.
Qed.

Lemma sum_of_sums {K : Type} (g h : K -> Z) (ks : list K) :
  fold_right Z.add 0%Z (map (fun k => (g k + h k)%Z) ks)
  = (fold_right Z.add 0%Z (map g ks) + fold_right Z.add 0%Z (map h ks))%Z.
Proof. induction ks as [|k ks IH]; cbn; lia. Qed.

Lemma sum_of_zeros {K : Type} (g : K -> Z) (ks : list K) :
  (forall k, In k ks -> g k = 0%Z) -> fold_right Z.add 0%Z (map g ks) = 0%Z.
Proof.
  induction ks as [|k ks IH]; intros H; cbn; [reflexivity|].
  rewrite (H k) by now left. rewrite IH; [reflexivity|].
  intros k' Hk'. apply H. now right.
Qed.

(** A row is counted in one group at most, and in the group of its key. *)
Lemma sum_of_indicator (k0 : group_key) (n : Z) (ks : list group_key) :
  NoDup ks ->
  In k0 ks ->
  fold_right Z.add 0%Z (map (fun k => if key_eqb k k0 then n else 0%Z) ks) = n.
Proof.
  induction 1 as [|k ks Hnotin Hnodup IH]; intros Hin; [destruct Hin|].
  cbn. destruct (key_eqb k k0) eqn:Hk.
  - apply key_eqb_eq in Hk. subst k0.
    rewrite sum_of_zeros; [lia|].
    intros k' Hk'. destruct (key_eqb k' k) eqn:Hk'k; [|reflexivity].
    apply key_eqb_eq in Hk'k. now subst k'.
  - destruct Hin as [->|Hin]; [now rewrite key_eqb_refl in Hk|].
    rewrite IH by assumption. lia.
Qed.

Lemma count_id_cons (r : silver_row) (df : list silver_row) (k : group_key) :
  count_id (r :: df) k
  = ((if in_group k r && notnull (row_id r) then 1 else 0) + count_id df k)%Z.
Proof.
  unfold count_id. cbn [filter].
  destruct (in_group k r && notnull (row_id r)); cbn [List.length]; lia.
Qed.

(** Over keys that are distinct and cover the frame, the counts add up
    to the number of rows that have a key and an id. *)
Lemma counts_partition (ks : list group_key) :
  NoDup ks ->
  forall df,
    (forall k, In k (keys_of df) -> In k ks) ->
    fold_right Z.add 0%Z (map (count_id df) ks)
    = Z.of_nat (List.length
                  (filter (fun r => cleaned r && notnull (row_id r)) df)).
Proof.
  intros Hnodup. induction df as [|r df IH]; intros Hcover.
  - cbn. now apply sum_of_zeros.
  - rewrite (map_ext _ _ (count_id_cons r df)), sum_of_sums.
    rewrite IH.
    2:{ intros k Hk. apply Hcover. cbn. destruct (key_of r); [now right|assumption]. }
    cbn [filter]. rewrite cleaned_key.
    destruct (key_of r) as [k0|] eqn:Hkey.
    + rewrite (map_ext _ (fun k => if key_eqb k k0
                                   then (if notnull (row_id r) then 1 else 0)%Z
                                   else 0%Z)).
      2:{ intros k. unfold in_group. rewrite Hkey. now destruct (key_eqb k k0). }
      rewrite sum_of_indicator; [|assumption|].
      2:{ apply Hcover. cbn. rewrite Hkey. now left. }
      cbn [andb]. destruct (notnull (row_id r)); cbn [List.length]; lia.
    + rewrite sum_of_zeros.
      2:{ intros k _. unfold in_group. now rewrite Hkey. }
      cbn [andb]. lia.
Qed.

Lemma aggregate_breweries_Ok (df : list silver_row) (out : gold_frame) :
  aggregate_breweries df = Ok out ->
  df <> []
  /\ out = mkGoldFrame (by_columns ++ ["brewery_count"])
                       (sort_by compare_sort_values (groupby_count df)).
Proof.
  destruct df as [|r df]; cbn; [discriminate|].
  intros H. split; [discriminate|congruence].
Qed.

Lemma sorted_groupby_count_total (df : list silver_row) :
  total_count (sort_by compare_sort_values (groupby_count df))
  = Z.of_nat (List.length
                (filter (fun r => cleaned r && notnull (row_id r)) df)).
Proof.
  rewrite (total_count_perm _ _ (sort_by_perm compare_sort_values _)).
  unfold groupby_count. rewrite total_count_groups.
  apply counts_partition; [apply NoDup_groups|].
  intros k. apply In_groups.
Qed.

(** The counts of the rows [aggregate_breweries] returns add up to the
    number of rows of its input that have a key and an id. *)
Theorem aggregate_breweries_conserves_identified
    (df : list silver_row) (out : gold_frame) :
  aggregate_breweries df = Ok out ->
  total_count (gold_rows out)
  = Z.of_nat (List.length
                (filter (fun r => cleaned r && notnull (row_id r)) df)).
Proof.
  intros Hagg. apply aggregate_breweries_Ok in Hagg. destruct Hagg as [_ ->].
  apply sorted_groupby_count_total.
Qed.

(** On cleaned records that all have an id, the counts add up to the
    number of records. *)
Theorem aggregate_breweries_conserves (df : list silver_row) :
  df <> [] ->
  forallb cleaned df = true ->
  forallb (fun r => notnull (row_id r)) df = true ->
  exists out,
    aggregate_breweries df = Ok out
    /\ total_count (gold_rows out) = Z.of_nat (List.length df).
Proof.
  intros Hne Hcleaned Hids.
  destruct (aggregate_breweries df) as [out|e] eqn:Hagg.
  - exists out. split; [reflexivity|].
    apply aggregate_breweries_Ok in Hagg. destruct Hagg as [_ ->].
    cbn [gold_rows]. rewrite sorted_groupby_count_total.
    do 2 f_equal. rewrite <- (filter_true df) at 2.
    apply filter_ext_in. intros r Hr.
    rewrite forallb_forall in Hcleaned, Hids.
    now rewrite (Hcleaned r Hr), (Hids r Hr).
  - destruct df; [contradiction | discriminate].
Qed.

(** The rows [aggregate_breweries] returns: the four columns; one row
    for each key present in the input, with the number of non-null ids of
    its group; in strictly ascending order of (country, state,
    brewery_type), so that no two rows share a key. *)
Theorem aggregate_breweries_rows (df : list silver_row) (out : gold_frame) :
  aggregate_breweries df = Ok out ->
  gold_columns out = ["brewery_type"; "country"; "state"; "brewery_count"]
  /\ StronglySorted (fun r1 r2 => compare_sort_values r1 r2 = Lt) (gold_rows out)
  /\ (forall row,
        In row (gold_rows out)
        <-> exists k, In k (keys_of df) /\ row = gold_of k (count_id df k)).
Proof.
  intros Hagg. apply aggregate_breweries_Ok in Hagg. destruct Hagg as [_ ->].
  cbn [gold_columns gold_rows]. split; [reflexivity|]. split.
  - pose proof (sort_by_sorted
                  (compare_pair compare_nullable
                     (compare_pair compare_nullable compare_nullable))
                  sort_key (groupby_count df)) as Hsorted.
    apply (sorted_strict _ sort_key _ Hsorted).
    apply (Permutation_NoDup (l := map sort_key (groupby_count df))).
    + apply Permutation_map. symmetry. apply sort_by_perm.
    + unfold groupby_count. rewrite map_map.
      apply NoDup_map_injective; [|apply NoDup_groups].
      intros [t1 [c1 s1]] [t2 [c2 s2]]. unfold sort_key, gold_of.
      cbn. intros H. now inversion H.
  - intros row. split.
    + intros Hin. apply (Permutation_in _ (sort_by_perm _ _)) in Hin.
      unfold groupby_count in Hin. apply in_map_iff in Hin.
      destruct Hin as [k [<- Hk]]. exists k. split; [|reflexivity].
      now apply In_groups.
    + intros [k [Hk ->]].
      apply (Permutation_in _ (Permutation_sym (sort_by_perm _ _))).
      unfold groupby_count. apply in_map_iff. exists k.
      split; [reflexivity | now apply In_groups].
Qed.

(** *** The claims on [aggregate_breweries] *)

(** C9.  On a frame without a row [aggregate_breweries] raises a
    [ValueError] whose message says the frame is empty, and returns no
    frame; it raises on no other input. *)
Theorem aggregate_breweries_empty_input :
  aggregate_breweries []
  = Raise (ValueError "Input DataFrame is empty. Cannot aggregate.")
  /\ contains "empty" "Input DataFrame is empty. Cannot aggregate." = true
  /\ (forall df, raises (aggregate_breweries df) = true <-> df = []).
Proof.
  split; [reflexivity|]. split; [reflexivity|].
  intros [|r df]; cbn; split; intros H; congruence.
Qed.

(** C1, at the failing input.  One cleaned record whose id is null: its
    group is listed with a count of 0, so the counts add up to 0 for an
    input of one record. *)
Theorem aggregate_breweries_loses_unidentified_record :
  forallb cleaned unidentified = true
  /\ aggregate_breweries unidentified
     = Ok (mkGoldFrame ["brewery_type"; "country"; "state"; "brewery_count"]
             [mkGold (Some "micro") (Some "United States") (Some "Texas") 0])
  /\ total_count [mkGold (Some "micro") (Some "United States") (Some "Texas") 0]
     = 0%Z
  /\ Z.of_nat (List.length unidentified) = 1%Z.
Proof. repeat split. Qed.

(** C4, at the failing input.  Two cleaned records of one group, one of
    them with a null id: the row of the group carries the count 1, and
    the group has two records. *)
Theorem aggregate_breweries_undercounts_group :
  forallb cleaned partly_identified = true
  /\ aggregate_breweries partly_identified
     = Ok (mkGoldFrame ["brewery_type"; "country"; "state"; "brewery_count"]
             [mkGold (Some "nano") (Some "United States") (Some "Ohio") 1;
              mkGold (Some "micro") (Some "United States") (Some "Texas") 1])
  /\ group_size partly_identified ("micro", ("United States", "Texas")) = 2%Z.
Proof. repeat split. Qed.

(** *** [aggregate_breweries] on the frame of the test *)

Lemma aggregate_breweries_conserves_identified_example :
  aggregate_breweries tested_rows = Ok tested_gold
  /\ total_count (gold_rows tested_gold)
     = Z.of_nat (List.length
                   (filter (fun r => cleaned r && notnull (row_id r)) tested_rows)).
Proof.
  split; [reflexivity|].
  apply (aggregate_breweries_conserves_identified tested_rows tested_gold).
  reflexivity.
Defined.

Lemma aggregate_breweries_conserves_example :
  exists out,
    aggregate_breweries tested_rows = Ok out
    /\ total_count (gold_rows out) = Z.of_nat (List.length tested_rows).
Proof.
  apply (aggregate_breweries_conserves tested_rows).
  - discriminate.
  - reflexivity.
  - reflexivity.
Defined.

Lemma aggregate_breweries_rows_example :
  aggregate_breweries tested_rows = Ok tested_gold
  /\ gold_columns tested_gold
     = ["brewery_type"; "country"; "state"; "brewery_count"]
  /\ StronglySorted (fun r1 r2 => compare_sort_values r1 r2 = Lt)
                    (gold_rows tested_gold)
  /\ (forall row,
        In row (gold_rows tested_gold)
        <-> exists k,
              In k (keys_of tested_rows)
              /\ row = gold_of k (count_id tested_rows k)).
Proof.
  split; [reflexivity|].
  apply (aggregate_breweries_rows tested_rows tested_gold).
  reflexivity.
Defined.

(** ** The quality gate *)

Section GateFacts.

Local Open Scope Z_scope.




Lemma sum_positive (l : list Z) :
  l <> [] -> Forall (fun c => 0 < c) l -> 0 < fold_right Z.add 0 l.
Proof.
  intros Hne Hpos. destruct Hpos as [|x l Hx Hl]; [contradiction|].
  assert (Hrest : 0 <= fold_right Z.add 0 l).
  { clear -Hl. induction Hl; cbn; lia. }
  cbn. lia.
Qed.

Lemma some_filtered {A : Type} (p : A -> bool) (l : list A) :
  negb (Nat.eqb (List.length (filter p l)) 0) = true
  <-> exists x, In x l /\ p x = true.
Proof.
  rewrite negb_true_iff, Nat.eqb_neq, length_zero_iff_nil.
  split.
  - intros Hne. destruct (filter p l) as [|x rest] eqn:Hf; [contradiction|].
    exists x. apply filter_In. rewrite Hf. now left.
  - intros [x Hx] Hnil. apply filter_In in Hx. rewrite Hnil in Hx. destruct Hx.
Qed.

Lemma isnull_None (o : option string) : isnull o = true <-> o = None.
Proof. destruct o; cbn; split; congruence. Qed.

Lemma null_counts_any (df : list gold_row) :
  existsb (fun cn => negb (Nat.eqb (snd cn) 0)) (null_counts df) = true
  <-> exists r, In r df /\ has_null_key r.
Proof.
  unfold null_counts, has_null_key. cbn [existsb snd].
  rewrite !orb_true_iff, !some_filtered. split.
  - intros [[r [Hin H]]|[[r [Hin H]]|[[r [Hin H]]|H]]];
      try discriminate; exists r; apply isnull_None in H; tauto.
  - intros [r [Hin [H|[H|H]]]]; apply isnull_None in H.
    + left. now exists r.
    + right. left. now exists r.
    + right. right. left. now exists r.
Qed.

Lemma wrap64_wrap64 (a x : Z) : wrap64 (wrap64 a + x) = wrap64 (a + x).
Proof.
  unfold wrap64. f_equal.
  replace ((a + 2 ^ 63) mod 2 ^ 64 - 2 ^ 63 + x + 2 ^ 63)
    with ((a + 2 ^ 63) mod 2 ^ 64 + x) by lia.
  rewrite Zplus_mod_idemp_l. f_equal. lia.
Qed.

(** The wrapping sum is the sum, wrapped once. *)
Lemma sum_int64_wraps (l : list Z) :
  sum_int64 l = wrap64 (fold_right Z.add 0 l).
Proof.
  unfold sum_int64.
  assert (Hfold : forall acc,
             fold_left (fun acc x => wrap64 (acc + x)) l (wrap64 acc)
             = wrap64 (acc + fold_right Z.add 0 l)).
  { induction l as [|x l IH]; intros acc; cbn [fold_left fold_right].
    - f_equal. lia.
    - rewrite wrap64_wrap64, IH. f_equal. lia. }
  change 0 with (wrap64 0) at 1. now rewrite Hfold.
Qed.

Lemma wrap64_zero (z : Z) : wrap64 z = 0 <-> z mod 2 ^ 64 = 0.
Proof.
  unfold wrap64.
  pose proof (Z.mod_pos_bound (z + 2 ^ 63) (2 ^ 64) ltac:(lia)) as Hbound.
  split; intros H.
  - assert (Hmod : (z + 2 ^ 63) mod 2 ^ 64 = 2 ^ 63) by lia.
    replace z with (z + 2 ^ 63 - 2 ^ 63) by lia.
    rewrite Zminus_mod, Hmod. now rewrite Z.sub_diag.
  - rewrite Zplus_mod, H. cbn [Z.add]. rewrite Z.mod_mod by lia.
    rewrite Z.mod_small; lia.
Qed.

Lemma mod_zero_small (z : Z) :
  - 2 ^ 64 < z < 2 ^ 64 -> (z mod 2 ^ 64 = 0 <-> z = 0).
Proof.
  intros Hz. split; [|now intros ->].
  intros Hmod. apply Z.mod_divide in Hmod; [|lia].
  destruct Hmod as [q Hq]. nia.
Qed.

(** C6, as amended.  [run_quality_check] hands the store back as it was,
    and returns nothing when it does not raise.  It raises exactly when
    the gold file is absent, or is not read, or has no row, or the sum of
    its brewery_count is zero modulo 2^64 (the sum of an int64 column
    wraps around), or a row has a null in a key column.  For an artifact
    whose sum is below 2^64 in absolute value, that is exactly when it
    has no row, or its brewery_count sums to zero, or a row has a null in
    a key column; and an artifact with a row, whose counts are positive
    and sum to less than 2^64, and without a null in a key column,
    passes. *)
Theorem run_quality_check_verdict (fs : filesystem) :
  fst (run_quality_check fs) = fs
  /\ (raises (snd (run_quality_check fs)) = false ->
      snd (run_quality_check fs) = Ok tt)
  /\ (raises (snd (run_quality_check fs)) = true
      <-> fs gold_file = None
          \/ (exists e, fs gold_file = Some (Raise e))
          \/ exists df,
               fs gold_file = Some (Ok df)
               /\ (df = []
                   \/ total_count df mod 2 ^ 64 = 0
                   \/ exists r, In r df /\ has_null_key r))
  /\ (forall df,
        fs gold_file = Some (Ok df) ->
        - 2 ^ 64 < total_count df < 2 ^ 64 ->
        (raises (snd (run_quality_check fs)) = true
         <-> df = []
             \/ total_count df = 0
             \/ exists r, In r df /\ has_null_key r))
  /\ (forall df,
        fs gold_file = Some (Ok df) ->
        df <> [] ->
        Forall (fun r => 0 < brewery_count r) df ->
        total_count df < 2 ^ 64 ->
        (forall r, In r df -> ~ has_null_key r) ->
        snd (run_quality_check fs) = Ok tt).
Proof.
  assert (Hrun : forall df,
             fs gold_file = Some (Ok df) ->
             fst (run_quality_check fs) = fs
             /\ (raises (snd (run_quality_check fs)) = true
                 <-> df = []
                     \/ total_count df mod 2 ^ 64 = 0
                     \/ exists r, In r df /\ has_null_key r)
             /\ (raises (snd (run_quality_check fs)) = false
                 -> snd (run_quality_check fs) = Ok tt)).
  { intros df Hfile. unfold run_quality_check. rewrite Hfile.
    destruct df as [|r0 df]; [cbn; intuition congruence|].
    set (rows := r0 :: df).
    rewrite sum_int64_wraps. fold (total_count rows).
    destruct (Z.eqb_spec (wrap64 (total_count rows)) 0) as [Hz|Hz].
    { apply wrap64_zero in Hz. cbn [fst snd raises].
      split; [reflexivity|]. split; [|discriminate].
      split; [intros _; right; left; exact Hz | reflexivity]. }
    rewrite wrap64_zero in Hz.
    destruct (existsb _ (null_counts rows)) eqn:Hnull.
    - apply null_counts_any in Hnull. cbn [fst snd raises].
      split; [reflexivity|]. split; [|discriminate].
      split; [intros _; right; right; exact Hnull | reflexivity].
    - assert (Hnone : ~ exists r, In r rows /\ has_null_key r).
      { intros H. apply null_counts_any in H. congruence. }
      cbn [fst snd raises]. split; [reflexivity|]. split; [|reflexivity].
      split; [discriminate|].
      intros [H|[H|H]]; [discriminate | contradiction | contradiction]. }
  assert (Hraise : forall df,
             fs gold_file = Some (Ok df) ->
             - 2 ^ 64 < total_count df < 2 ^ 64 ->
             (raises (snd (run_quality_check fs)) = true
              <-> df = []
                  \/ total_count df = 0
                  \/ exists r, In r df /\ has_null_key r)).
  { intros df Hfile Hsmall.
    destruct (Hrun df Hfile) as [_ [Hiff _]].
    rewrite Hiff, (mod_zero_small _ Hsmall). reflexivity. }
  split; [|split; [|split; [|split]]].
  - destruct (fs gold_file) as [[df|e]|] eqn:Hfile.
    + now apply (Hrun df).
    + unfold run_quality_check. now rewrite Hfile.
    + unfold run_quality_check. now rewrite Hfile.
  - destruct (fs gold_file) as [[df|e]|] eqn:Hfile.
    + now apply (Hrun df).
    + unfold run_quality_check. rewrite Hfile. discriminate.
    + unfold run_quality_check. rewrite Hfile. discriminate.
  - destruct (fs gold_file) as [[df|e]|] eqn:Hfile.
    + destruct (Hrun df eq_refl) as [_ [Hiff _]]. rewrite Hiff. split.
      * intros H. right. right. now exists df.
      * intros [H|[[e H]|[df' [Heq H]]]]; try discriminate.
        injection Heq as <-. exact H.
    + unfold run_quality_check. rewrite Hfile. cbn.
      split; [|reflexivity]. intros _. right. left. now exists e.
    + unfold run_quality_check. rewrite Hfile. cbn.
      split; [now left | reflexivity].
  - exact Hraise.
  - intros df Hfile Hne Hpos Hsum Hkeys.
    assert (Hcounts : Forall (fun c => 0 < c) (map brewery_count df))
      by (apply Forall_map; exact Hpos).
    assert (Hrows : map brewery_count df <> [])
      by (destruct df; [contradiction | discriminate]).
    pose proof (sum_positive _ Hrows Hcounts) as Htotal.
    fold (total_count df) in Htotal.
    destruct (Hrun df Hfile) as [_ [_ Hok]]. apply Hok.
    apply not_true_is_false. intros Hr.
    apply (Hraise df Hfile) in Hr; [|lia].
    destruct Hr as [H|[H|[r [Hin H]]]]; [contradiction | lia |].
    now apply (Hkeys r).
Qed.

End GateFacts.

(** *** The gate on examples *)

(** C6, counterexample.  An artifact of four rows, without a null, whose
    counts are positive and add up to 2^64: the sum of the int64 column
    is 0, and the gate raises as for a total of zero. *)
Lemma run_quality_check_refuses_positive_counts :
  holding overflowing_gold gold_file = Some (Ok overflowing_gold)
  /\ Forall (fun r => (0 < brewery_count r < 2 ^ 63)%Z) overflowing_gold
  /\ Forall (fun r => notnull (gold_brewery_type r)
                      && notnull (gold_country r)
                      && notnull (gold_state r) = true)
            overflowing_gold
  /\ total_count overflowing_gold = (2 ^ 64)%Z
  /\ total_count overflowing_gold <> 0%Z
  /\ sum_int64 (map brewery_count overflowing_gold) = 0%Z
  /\ snd (run_quality_check (holding overflowing_gold))
     = Raise (ValueError "Data quality check FAILED: brewery_count sums to zero.").
Proof.
  split; [reflexivity|].
  split; [repeat constructor|].
  split; [repeat constructor|].
  split; [reflexivity|]. split; [discriminate|]. split; reflexivity.
Qed.

Lemma run_quality_check_examples :
  snd (run_quality_check (holding (gold_rows tested_gold))) = Ok tt
  /\ snd (run_quality_check (fun _ => None))
     = Raise (FileNotFoundError
                "Data quality check FAILED: gold file not found at /opt/airflow/data/gold/breweries_aggregated.parquet")
  /\ snd (run_quality_check (holding []))
     = Raise (ValueError "Data quality check FAILED: gold layer is empty.")
  /\ snd (run_quality_check
            (holding [mkGold (Some "micro") None (Some "Texas") 3%Z;
                      mkGold None None (Some "Ohio") 1%Z]))
     = Raise (ValueError
                "Data quality check FAILED: null values in key columns: {'brewery_type': 1, 'country': 2}")
  /\ snd (run_quality_check
            (holding [mkGold (Some "micro") (Some "United States")
                             (Some "Texas") 0%Z]))
     = Raise (ValueError "Data quality check FAILED: brewery_count sums to zero.").
Proof. repeat split. Qed.

(* ===================================================================== *)
(** * Part III: further properties of the code *)
(* ===================================================================== *)

(** ** More on [clean_and_transform] *)

Section CleanMore.

Context {rt : Runtime}.

Lemma finish_cell_optional (c : string) (v : value) :
  In c str_cols -> finish_cell c v = fillna_unknown v.
Proof.
  intros H. repeat (destruct H as [<-|H]; [reflexivity|]). destruct H.
Qed.

Lemma finish_cell_other (c : string) (v : value) :
  ~ In c str_cols -> ~ In c coordinates -> finish_cell c v = v.
Proof.
  intros Hstr Hcoord. unfold finish_cell.
  destruct (mem c str_cols) eqn:H1; [apply mem_In in H1; contradiction|].
  destruct (mem c coordinates) eqn:H2; [apply mem_In in H2; contradiction|].
  reflexivity.
Qed.

(** In the row of a record that is kept, an optional string (city,
    country, ...) carried under the name [k] is "unknown" when the record
    has a null there or does not carry the field, and is the text of the
    record otherwise. *)
Theorem clean_fills_optional_strings
    (data : list record) (kt ks c k : string) :
  names_of data "brewery_type" = [kt] ->
  names_of data "state" = [ks] ->
  List.length (names_of data "latitude") <= 1 ->
  List.length (names_of data "longitude") <= 1 ->
  In c ["city"; "country"; "state_province"; "postal_code"; "phone";
        "website_url"; "address_1"; "address_2"; "address_3"] ->
  names_of data c = [k] ->
  exists out,
    clean_and_transform data = Ok out
    /\ Forall2
         (fun r row =>
            (field_of r k = None ->
             cells_under c (columns out) row = [VStr "unknown"])
            /\ (forall s,
                  field_of r k = Some s ->
                  cells_under c (columns out) row = [VStr s]))
         (filter (complete kt ks) data) (rows out).
Proof.
  intros Ht Hs Hlat Hlon Hc Hk.
  eexists. split; [now apply (clean_and_transform_named data kt ks)|].
  cbn [columns rows]. apply Forall2_map_r. intros r _.
  rewrite (cleaned_cells data r c k Hk).
  rewrite finish_cell_optional by exact Hc.
  split; [now intros -> | now intros s ->].
Qed.

(** In the row of a record that is kept, a field that is neither an
    optional string nor a coordinate (the id, the name, the type, the
    state, ...) is what the record has under its name, null when the
    record does not carry it. *)
Theorem clean_keeps_other_cells (data : list record) (kt ks c k : string) :
  names_of data "brewery_type" = [kt] ->
  names_of data "state" = [ks] ->
  List.length (names_of data "latitude") <= 1 ->
  List.length (names_of data "longitude") <= 1 ->
  ~ In c ["city"; "country"; "state_province"; "postal_code"; "phone";
          "website_url"; "address_1"; "address_2"; "address_3";
          "latitude"; "longitude"] ->
  names_of data c = [k] ->
  exists out,
    clean_and_transform data = Ok out
    /\ Forall2
         (fun r row =>
            cells_under c (columns out) row = [value_of (field_of r k)])
         (filter (complete kt ks) data) (rows out).
Proof.
  intros Ht Hs Hlat Hlon Hother Hk.
  eexists. split; [now apply (clean_and_transform_named data kt ks)|].
  cbn [columns rows]. apply Forall2_map_r. intros r _.
  rewrite (cleaned_cells data r c k Hk).
  rewrite finish_cell_other; [reflexivity | |].
  - intros H. apply Hother. unfold str_cols in H. cbn [In] in *. tauto.
  - intros H. apply Hother. unfold coordinates in H. cbn [In] in *. tauto.
Qed.

(** The frame returned for records that carry a field has one column
    for each name under which a field is carried, labelled with the name
    lower-cased and stripped: no column is added for an optional string
    or a coordinate that no record carries, and none is removed. *)
Theorem clean_and_transform_columns (data : list record) (out : DataFrame) :
  field_names data <> [] ->
  clean_and_transform data = Ok out ->
  List.length (columns out) = List.length (nodup string_dec (field_names data))
  /\ forall c, count c (columns out) = List.length (names_of data c).
Proof.
  intros Hnames Hclean. apply empty_frame_names in Hnames.
  destruct (clean_and_transform_Ok data out Hnames Hclean) as [-> _].
  cbn [columns]. split; [|intros c; apply count_labels].
  unfold labels_of. rewrite length_map. apply Permutation_length.
  apply NoDup_Permutation.
  - apply NoDup_first_seen.
  - apply NoDup_nodup.
  - intros k. rewrite nodup_In. unfold frame_of_records. cbn [columns].
    rewrite In_first_seen. unfold field_names. cbn [In]. tauto.
Qed.

(** [clean_and_transform] raises exactly when some record carries a
    field and either a required field is carried by no record, or a
    coordinate is carried under two names.  What it raises is the
    [KeyError] of [dropna] with the required fields not carried, or the
    [IndexError] of numpy when the other required field is carried under
    two names, and otherwise the [TypeError] of [pd.to_numeric]. *)
Theorem clean_and_transform_raises (data : list record) :
  let absent := names_of data "brewery_type" = [] \/ names_of data "state" = [] in
  let required_twice :=
    2 <= List.length (names_of data "brewery_type")
    \/ 2 <= List.length (names_of data "state") in
  let coordinate_twice :=
    2 <= List.length (names_of data "latitude")
    \/ 2 <= List.length (names_of data "longitude") in
  (raises (clean_and_transform data) = true
   <-> field_names data <> [] /\ (absent \/ coordinate_twice))
  /\ (forall e,
        clean_and_transform data = Raise e ->
        (absent /\ ~ required_twice /\ e = KeyError (absent_required data))
        \/ (absent /\ required_twice /\ e = IndexError)
        \/ (~ absent /\ coordinate_twice /\ exists msg, e = TypeError msg)).
Proof.
  intros absent required_twice coordinate_twice.
  assert (Habsent : absent_required data <> [] <-> absent).
  { unfold absent. split.
    - intros Hne. destruct (absent_required data) as [|m ms] eqn:Hm;
        [contradiction|].
      assert (Hin : In m (absent_required data)) by (rewrite Hm; now left).
      apply absent_required_In in Hin. destruct Hin as [[<-|[<-|[]]] Hn]; auto.
    - intros H Hnil.
      assert (Hin : forall c, In c required -> names_of data c = [] ->
                              In c (absent_required data))
        by (intros c Hc Hn; now apply absent_required_In).
      rewrite Hnil in Hin.
      destruct H as [H|H];
        [apply (Hin "brewery_type") | apply (Hin "state")]; cbn; auto. }
  assert (Hreq : (exists c, In c required /\ 2 <= List.length (names_of data c))
                 <-> required_twice).
  { unfold required_twice. split.
    - intros [c [[<-|[<-|[]]] H]]; auto.
    - intros [H|H]; [exists "brewery_type" | exists "state"]; cbn; auto. }
  assert (Hcoord : (exists c, In c coordinates
                              /\ 2 <= List.length (names_of data c))
                   <-> coordinate_twice).
  { unfold coordinate_twice. split.
    - intros [c [[<-|[<-|[]]] H]]; auto.
    - intros [H|H]; [exists "latitude" | exists "longitude"]; cbn; auto. }
  assert (Hrequ : (forall c, In c required -> List.length (names_of data c) <= 1)
                  -> ~ required_twice).
  { intros Hall Htwo. apply Hreq in Htwo. destruct Htwo as [c [Hc Htwo]].
    specialize (Hall c Hc). lia. }
  assert (Hcoordu : (forall c, In c coordinates
                               -> List.length (names_of data c) <= 1)
                    -> ~ coordinate_twice).
  { intros Hall Htwo. apply Hcoord in Htwo. destruct Htwo as [c [Hc Htwo]].
    specialize (Hall c Hc). lia. }
  destruct (empty (frame_of_records data)) eqn:Hempty.
  - assert (Hok : clean_and_transform data = Ok (frame_of_records data))
      by (unfold clean_and_transform; now rewrite Hempty).
    rewrite Hok. split.
    + cbn [raises]. split; [discriminate|]. intros [Hnames _].
      apply empty_frame_names in Hnames. congruence.
    + intros e He. discriminate.
  - assert (Hnames : field_names data <> []) by now apply empty_frame_names.
    destruct (clean_and_transform_cases data Hnames)
      as [[Hne [Huniq Hrun]]|[[Hne [Hrep Hrun]]
          |[[Hnil [Hrep [msg Hrun]]]|[Hnil [Huniq [out Hrun]]]]]];
      rewrite Hrun; cbn [raises].
    + apply Habsent in Hne. split.
      * split; [|reflexivity]. intros _. split; [assumption | now left].
      * intros e He. left. split; [assumption|].
        split; [now apply Hrequ | congruence].
    + apply Habsent in Hne. apply Hreq in Hrep. split.
      * split; [|reflexivity]. intros _. split; [assumption | now left].
      * intros e He. right. left. split; [assumption|].
        split; [assumption | congruence].
    + apply Hcoord in Hrep.
      assert (Hpresent : ~ absent)
        by (intros H; apply Habsent in H; contradiction).
      split.
      * split; [|reflexivity]. intros _. split; [assumption | now right].
      * intros e He. right. right. split; [assumption|].
        split; [assumption|]. exists msg. congruence.
    + assert (Hpresent : ~ absent)
        by (intros H; apply Habsent in H; contradiction).
      split.
      * split; [discriminate|]. intros [_ [H|H]]; [contradiction|].
        now apply Hcoordu in H.
      * intros e He. discriminate.
Qed.

End CleanMore.

Lemma clean_fills_optional_strings_example :
  exists out,
    @clean_and_transform ascii_runtime sample_records = Ok out
    /\ Forall2
         (fun r row =>
            (field_of r "city" = None ->
             cells_under "city" (columns out) row = [VStr "unknown"])
            /\ (forall s,
                  field_of r "city" = Some s ->
                  cells_under "city" (columns out) row = [VStr s]))
         (filter (complete "Brewery_Type" "state") sample_records) (rows out).
Proof.
  apply (@clean_fills_optional_strings ascii_runtime
           sample_records "Brewery_Type" "state" "city" "city").
  - reflexivity.
  - reflexivity.
  - vm_compute. lia.
  - vm_compute. lia.
  - cbn. auto.
  - reflexivity.
Defined.

Lemma clean_keeps_other_cells_example :
  exists out,
    @clean_and_transform ascii_runtime sample_records = Ok out
    /\ Forall2
         (fun r row =>
            cells_under "id" (columns out) row = [value_of (field_of r "id")])
         (filter (complete "Brewery_Type" "state") sample_records) (rows out).
Proof.
  apply (@clean_keeps_other_cells ascii_runtime
           sample_records "Brewery_Type" "state" "id" "id").
  - reflexivity.
  - reflexivity.
  - vm_compute. lia.
  - vm_compute. lia.
  - cbn. intros H. repeat (destruct H as [H|H]; [discriminate H|]). exact H.
  - reflexivity.
Defined.

Lemma clean_and_transform_columns_example :
  List.length (columns sample_cleaned)
  = List.length (nodup string_dec (field_names sample_records))
  /\ forall c, count c (columns sample_cleaned)
               = List.length (@names_of ascii_runtime sample_records c).
Proof.
  apply (@clean_and_transform_columns ascii_runtime
           sample_records sample_cleaned).
  - discriminate.
  - reflexivity.
Defined.

(** ** More on [aggregate_breweries] *)

Lemma filter_length_perm {A : Type} (p : A -> bool) (l l' : list A) :
  Permutation l l' ->
  List.length (filter p l) = List.length (filter p l').
Proof.
  induction 1 as [|x l l' Hperm IH|x y l|l1 l2 l3 H12 IH12 H23 IH23]; cbn.
  - reflexivity.
  - destruct (p x); cbn; congruence.
  - destruct (p x), (p y); reflexivity.
  - congruence.
Qed.

(** Two strictly ascending lists with the same elements are equal. *)
Lemma strict_sorted_unique {K : Type} (c : K -> K -> comparison)
    {Hc : Order c} (l : list K) :
  forall l',
    StronglySorted (fun a b => c a b = Lt) l ->
    StronglySorted (fun a b => c a b = Lt) l' ->
    (forall x, In x l <-> In x l') ->
    l = l'.
Proof.
  assert (Hirrefl : forall x, c x x <> Lt).
  { intros x Hx. assert (Heq : c x x = Eq) by now apply order_eq. congruence. }
  induction l as [|x l IH]; intros [|y l'] Hl Hl' Hsame.
  - reflexivity.
  - destruct (proj2 (Hsame y) (or_introl eq_refl)).
  - destruct (proj1 (Hsame x) (or_introl eq_refl)).
  - inversion Hl as [|? ? Hsl Hxl]; subst.
    inversion Hl' as [|? ? Hsl' Hyl']; subst.
    rewrite Forall_forall in Hxl, Hyl'.
    assert (Hxy : x = y).
    { destruct (proj1 (Hsame x) (or_introl eq_refl)) as [Heq|Hin]; [now subst|].
      destruct (proj2 (Hsame y) (or_introl eq_refl)) as [Heq|Hin']; [assumption|].
      exfalso. apply (Hirrefl x).
      apply (order_trans x y x); [now apply Hxl | now apply Hyl']. }
    subst y. f_equal. apply IH; try assumption.
    intros z. split; intros Hz.
    + destruct (proj1 (Hsame z) (or_intror Hz)) as [Heq|Hin]; [|assumption].
      subst z. exfalso. apply (Hirrefl x). now apply Hxl.
    + destruct (proj2 (Hsame z) (or_intror Hz)) as [Heq|Hin]; [|assumption].
      subst z. exfalso. apply (Hirrefl x). now apply Hyl'.
Qed.

Lemma groups_strictly_sorted (df : list silver_row) :
  StronglySorted (fun a b => compare_groupby a b = Lt) (groups df).
Proof.
  pose proof (sort_by_sorted compare_groupby (fun k => k)
                (distinct (keys_of df))) as Hsorted.
  apply (sorted_strict compare_groupby (fun k => k) _ Hsorted).
  rewrite map_id. apply NoDup_groups.
Qed.

Lemma groups_perm_invariant (df df' : list silver_row) :
  Permutation df df' -> groups df = groups df'.
Proof.
  intros Hperm.
  apply (strict_sorted_unique compare_groupby); try apply groups_strictly_sorted.
  intros k. rewrite !In_groups, !In_keys_of.
  split; intros [r [Hin Hkey]]; exists r; split; try assumption.
  - now apply (Permutation_in _ Hperm).
  - now apply (Permutation_in _ (Permutation_sym Hperm)).
Qed.

(** The aggregate does not depend on the order of the rows it is given
    (the order in which the silver files are found and read). *)
Theorem aggregate_breweries_order_independent (df df' : list silver_row) :
  Permutation df df' ->
  aggregate_breweries df = aggregate_breweries df'.
Proof.
  intros Hperm.
  assert (Hrows : groupby_count df = groupby_count df').
  { unfold groupby_count. rewrite (groups_perm_invariant df df' Hperm).
    apply map_ext. intros k. unfold count_id.
    now rewrite (filter_length_perm _ df df' Hperm). }
  destruct df as [|r df], df' as [|r' df'].
  - reflexivity.
  - apply Permutation_nil in Hperm. discriminate.
  - apply Permutation_sym, Permutation_nil in Hperm. discriminate.
  - cbn [aggregate_breweries]. now rewrite Hrows.
Qed.

Lemma groupby_count_skips (r : silver_row) (df : list silver_row) :
  cleaned r = false -> groupby_count (r :: df) = groupby_count df.
Proof.
  intros Hr. rewrite cleaned_key in Hr.
  destruct (key_of r) as [k|] eqn:Hkey; [discriminate|].
  unfold groupby_count, groups. cbn [keys_of]. rewrite Hkey.
  apply map_ext. intros k. f_equal. rewrite count_id_cons.
  unfold in_group. rewrite Hkey. cbn [andb]. lia.
Qed.

(** A row with a null in a grouping column is in no group: putting it
    in front of a frame that has a row changes nothing. *)
Theorem aggregate_breweries_skips_row_without_key
    (r : silver_row) (df : list silver_row) :
  cleaned r = false ->
  df <> [] ->
  aggregate_breweries (r :: df) = aggregate_breweries df.
Proof.
  intros Hr Hne. destruct df as [|r' df]; [contradiction|].
  cbn [aggregate_breweries]. now rewrite groupby_count_skips.
Qed.


Lemma aggregate_breweries_order_independent_example :
  Permutation tested_rows tested_rows_shuffled
  /\ aggregate_breweries tested_rows = aggregate_breweries tested_rows_shuffled.
Proof.
  assert (Hperm : Permutation tested_rows tested_rows_shuffled).
  { unfold tested_rows, tested_rows_shuffled.
    eapply perm_trans; [apply perm_skip, perm_swap|].
    eapply perm_trans; [apply perm_swap|].
    apply perm_skip, perm_swap. }
  split; [exact Hperm|].
  apply (aggregate_breweries_order_independent
           tested_rows tested_rows_shuffled Hperm).
Defined.

Lemma aggregate_breweries_skips_row_without_key_example :
  cleaned stateless_row = false
  /\ aggregate_breweries (stateless_row :: tested_rows) = Ok tested_gold.
Proof.
  split; [reflexivity|].
  rewrite (aggregate_breweries_skips_row_without_key stateless_row tested_rows);
    [reflexivity | reflexivity | discriminate].
Defined.


(** ** More on the ingestion *)

Section BronzeMore.

Context {json : Type}.

Local Open Scope itree_scope.

(** One turn of the loop on a page that fails: the loop ends with the
    failure of the request. *)
Lemma fetch_loop_fails (acc : list json) (page : nat) (w : world json) (e : exn) :
  api w page 200 = Raise e ->
  run (ITree.iter fetch_step (acc, page)) w
  ≈ Ret (mkWorld (api w) (requested w ++ [page]) (clock w) (dirs w) (files w),
         Raise e).
Proof.
  intros Hfail. unfold run.
  rewrite unfold_iter. cbn. unfold fetch_breweries.
  rewrite bind_bind, interp_state_bind, interp_state_trigger. cbn.
  rewrite bind_ret_l. cbn. rewrite Hfail.
  rewrite bind_ret_l, interp_state_ret. reflexivity.
Qed.

(** The loop over pages that all hold records. *)
Lemma fetch_loop_prefix (todo : list (list json)) :
  forall (acc : list json) (start : nat) (w : world json),
    (forall i p, nth_error todo i = Some p ->
                 api w (start + i) 200 = Ok p /\ p <> []) ->
    run (ITree.iter fetch_step (acc, start)) w
    ≈ run (ITree.iter fetch_step
             (acc ++ List.concat todo, start + List.length todo))
          (mkWorld (api w) (requested w ++ seq start (List.length todo))
                   (clock w) (dirs w) (files w)).
Proof.
  induction todo as [|p todo IH]; intros acc start w Hserved.
  - cbn [List.concat List.length seq]. rewrite !app_nil_r, Nat.add_0_r.
    destruct w. reflexivity.
  - destruct (Hserved 0 p eq_refl) as [Hp Hne]. rewrite Nat.add_0_r in Hp.
    destruct p as [|x data]; [contradiction|].
    rewrite (fetch_loop_goes_on acc start w x data Hp).
    rewrite IH.
    + cbn [api requested clock dirs files List.concat List.length seq].
      rewrite <- !app_assoc. cbn [app].
      replace (start + 1 + List.length todo) with (start + S (List.length todo))
        by lia.
      replace (start + 1) with (S start) by lia.
      reflexivity.
    + intros i p Hi. cbn [api].
      replace (start + 1 + i) with (start + S i) by lia.
      now apply Hserved.
Qed.

(** When a request fails, [fetch_all_breweries] raises its failure: the
    records of the pages before are not returned.  The pages asked for
    are those up to the one that failed. *)
Theorem fetch_all_breweries_propagates_failure
    (pre : list (list json)) (e : exn) (w : world json) :
  (forall i p, nth_error pre i = Some p -> api w (1 + i) 200 = Ok p /\ p <> []) ->
  api w (1 + List.length pre) 200 = Raise e ->
  run fetch_all_breweries w
  ≈ Ret (mkWorld (api w) (requested w ++ seq 1 (List.length pre + 1))
                 (clock w) (dirs w) (files w),
         Raise e).
Proof.
  intros Hserved Hfail. unfold fetch_all_breweries.
  rewrite (fetch_loop_prefix pre [] 1 w Hserved).
  rewrite fetch_loop_fails by (cbn [api]; exact Hfail).
  cbn [api requested clock dirs files].
  rewrite <- app_assoc, Nat.add_1_r, seq_S. reflexivity.
Qed.

Lemma write_json_other (path p : string) (data d : list json)
    (on_disk : list (string * list json)) :
  p <> path ->
  In (p, d) (write_json path data on_disk) <-> In (p, d) on_disk.
Proof.
  intros Hp. unfold write_json. cbn [In]. rewrite filter_In. cbn [fst].
  apply String.eqb_neq in Hp. rewrite Hp. cbn [negb].
  split; [|tauto].
  intros [H|[H _]]; [|assumption].
  apply String.eqb_neq in Hp. congruence.
Qed.

Lemma write_json_same (path : string) (data d : list json)
    (on_disk : list (string * list json)) :
  In (path, d) (write_json path data on_disk) <-> d = data.
Proof.
  unfold write_json. cbn [In]. rewrite filter_In. cbn [fst].
  rewrite String.eqb_refl. cbn [negb].
  split; [|intros ->; now left].
  intros [H|[_ H]]; [congruence | discriminate].
Qed.

(** When the pages before the first empty one hold records,
    [ingest_breweries] writes one file, the snapshot of all the records
    in the order of the pages, under the bronze path and the clock's
    reading, and returns its path.  A snapshot already at that path (one
    taken within the same second) is replaced; the files at the other
    paths are kept as they were. *)
Theorem ingest_breweries_writes_snapshot
    (pre : list (list json)) (w : world json) :
  pre <> [] ->
  (forall i p, nth_error pre i = Some p -> api w (1 + i) 200 = Ok p /\ p <> []) ->
  api w (1 + List.length pre) 200 = Ok [] ->
  let path :=
    ("/opt/airflow/data/bronze/breweries_raw_" ++ clock w ++ ".json")%string in
  let on_disk := write_json path (List.concat pre) (files w) in
  run ingest_breweries w
  ≈ Ret (mkWorld (api w) (requested w ++ seq 1 (List.length pre + 1))
                 (clock w) ("/opt/airflow/data/bronze" :: dirs w) on_disk,
         Ok path)
  /\ (forall d, In (path, d) on_disk <-> d = List.concat pre)
  /\ (forall p d, p <> path -> In (p, d) on_disk <-> In (p, d) (files w)).
Proof.
  intros Hne Hserved Hempty path on_disk.
  split; [|split; [intros d; apply write_json_same
                  | intros p d Hp; now apply write_json_other]].
  subst path on_disk.
  assert (Hloop : run fetch_all_breweries w
                  ≈ Ret (mkWorld (api w)
                           ((requested w ++ seq 1 (List.length pre))
                              ++ [1 + List.length pre])
                           (clock w) (dirs w) (files w),
                         Ok ([] ++ List.concat pre))).
  { unfold fetch_all_breweries.
    rewrite (fetch_loop_prefix pre [] 1 w Hserved).
    rewrite fetch_loop_stops by (cbn [api]; exact Hempty).
    reflexivity. }
  unfold run, ingest_breweries. rewrite interp_state_bind.
  unfold run in Hloop. rewrite Hloop.
  rewrite bind_ret_l. cbn [app fst snd].
  destruct pre as [|p pre]; [contradiction|].
  destruct (Hserved 0 p eq_refl) as [_ Hp].
  destruct p as [|x data]; [contradiction|].
  cbn [List.concat app].
  pose proof (save_to_bronze_writes
                (x :: data ++ List.concat pre) BRONZE_PATH
                (mkWorld (api w)
                   ((requested w ++ seq 1 (List.length ((x :: data) :: pre)))
                      ++ [1 + List.length ((x :: data) :: pre)])
                   (clock w) (dirs w) (files w))) as Hsave.
  unfold run in Hsave. cbn [api requested clock dirs files] in *.
  rewrite Hsave.
  rewrite <- app_assoc, Nat.add_1_r.
  change (1 + List.length ((x :: data) :: pre))
    with (S (List.length ((x :: data) :: pre))).
  rewrite <- seq_S. reflexivity.
Qed.

(** When a request fails, so does [ingest_breweries], with the failure
    of the request: no directory is made and no file is written. *)
Theorem ingest_breweries_propagates_failure
    (pre : list (list json)) (e : exn) (w : world json) :
  (forall i p, nth_error pre i = Some p -> api w (1 + i) 200 = Ok p /\ p <> []) ->
  api w (1 + List.length pre) 200 = Raise e ->
  run ingest_breweries w
  ≈ Ret (mkWorld (api w) (requested w ++ seq 1 (List.length pre + 1))
                 (clock w) (dirs w) (files w),
         Raise e).
Proof.
  intros Hserved Hfail.
  assert (Hloop : run fetch_all_breweries w
                  ≈ Ret (mkWorld (api w)
                           ((requested w ++ seq 1 (List.length pre))
                              ++ [1 + List.length pre])
                           (clock w) (dirs w) (files w),
                         Raise e)).
  { unfold fetch_all_breweries.
    rewrite (fetch_loop_prefix pre [] 1 w Hserved).
    rewrite fetch_loop_fails by (cbn [api]; exact Hfail).
    reflexivity. }
  unfold run, ingest_breweries. rewrite interp_state_bind.
  unfold run in Hloop. rewrite Hloop.
  rewrite bind_ret_l. cbn. rewrite interp_state_ret.
  rewrite <- app_assoc, Nat.add_1_r, seq_S. reflexivity.
Qed.

(** One turn of the loop on a page with records, every silent step
    counted. *)
Lemma fetch_loop_unfolds (acc : list json) (page : nat) (w : world json)
    (x : json) (data : list json) :
  api w page 200 = Ok (x :: data) ->
  run (ITree.iter fetch_step (acc, page)) w
  ≅ Tau (Tau (run (ITree.iter fetch_step (acc ++ x :: data, page + 1))
                  (mkWorld (api w) (requested w ++ [page]) (clock w)
                           (dirs w) (files w)))).
Proof.
  intros Hpage. unfold run.
  rewrite unfold_iter at 1. cbn. unfold fetch_breweries.
  rewrite bind_bind, interp_state_bind, interp_state_trigger_eqit. cbn.
  rewrite bind_ret_l, bind_tau, bind_ret_l. cbn. rewrite Hpage.
  rewrite bind_ret_l, interp_state_tau. reflexivity.
Qed.

Lemma fetch_loop_spins :
  forall (acc : list json) (page : nat) (w : world json),
    1 <= page ->
    (forall p, 1 <= p -> exists x data, api w p 200 = Ok (x :: data)) ->
    run (ITree.iter fetch_step (acc, page)) w ≈ ITree.spin.
Proof.
  einit. ecofix CIH. intros acc page w Hpage Hall.
  destruct (Hall page Hpage) as [x [data Hp]].
  rewrite (fetch_loop_unfolds acc page w x data Hp).
  rewrite (itree_eta ITree.spin). cbn.
  etau. rewrite tau_euttge. ebase. right. apply CIHL; [lia | exact Hall].
Qed.

(** Against an API that has records on every page, the loop has no
    bound of its own: [fetch_all_breweries] goes on asking and never
    returns, with a result or with an exception. *)
Theorem fetch_all_breweries_never_returns (w : world json) :
  (forall p, 1 <= p -> exists x data, api w p 200 = Ok (x :: data)) ->
  run fetch_all_breweries w ≈ ITree.spin
  /\ forall r, ~ (run fetch_all_breweries w ≈ Ret r).
Proof.
  intros Hall.
  assert (Hspin : run fetch_all_breweries w ≈ ITree.spin)
    by (apply fetch_loop_spins; [lia | exact Hall]).
  split; [exact Hspin|].
  intros r Hret. rewrite Hspin in Hret.
  now apply eutt_spin_Ret_abs in Hret.
Qed.

End BronzeMore.

(** *** The ingestion on examples (records are numbered) *)

(** A page of records, then a failure of the second request. *)
Lemma fetch_all_breweries_propagates_failure_example :
  run fetch_all_breweries (fresh_world [[1; 2]] "20240102_030405")
  ≈ Ret (mkWorld (serve [[1; 2]]) [1; 2] "20240102_030405" [] [],
         Raise (RequestException HTTPError)).
Proof.
  apply (fetch_all_breweries_propagates_failure
           [[1; 2]] (RequestException HTTPError)
           (fresh_world [[1; 2]] "20240102_030405")).
  - intros [|[|i]] p Hp; cbn in Hp; try discriminate.
    injection Hp as <-. split; [reflexivity | discriminate].
  - reflexivity.
Defined.

Lemma ingest_breweries_propagates_failure_example :
  run ingest_breweries (fresh_world [[1; 2]] "20240102_030405")
  ≈ Ret (mkWorld (serve [[1; 2]]) [1; 2] "20240102_030405" [] [],
         Raise (RequestException HTTPError)).
Proof.
  apply (ingest_breweries_propagates_failure
           [[1; 2]] (RequestException HTTPError)
           (fresh_world [[1; 2]] "20240102_030405")).
  - intros [|[|i]] p Hp; cbn in Hp; try discriminate.
    injection Hp as <-. split; [reflexivity | discriminate].
  - reflexivity.
Defined.

(** Two pages of records and an empty one: one snapshot of three
    records. *)
(** A second run within the second of a first one, next to an older
    snapshot. *)
Lemma ingest_breweries_writes_snapshot_example :
  let before :=
    [("/opt/airflow/data/bronze/breweries_raw_20240102_030405.json", [9]);
     ("/opt/airflow/data/bronze/breweries_raw_20240101_000000.json", [8])] in
  let after :=
    [("/opt/airflow/data/bronze/breweries_raw_20240102_030405.json", [1; 2; 3]);
     ("/opt/airflow/data/bronze/breweries_raw_20240101_000000.json", [8])] in
  run ingest_breweries
      (mkWorld (serve [[1; 2]; [3]; []]) [] "20240102_030405" [] before)
  ≈ Ret (mkWorld (serve [[1; 2]; [3]; []]) [1; 2; 3] "20240102_030405"
                 ["/opt/airflow/data/bronze"] after,
         Ok "/opt/airflow/data/bronze/breweries_raw_20240102_030405.json")
  /\ (forall d,
        In ("/opt/airflow/data/bronze/breweries_raw_20240102_030405.json", d)
           after
        <-> d = [1; 2; 3])
  /\ (forall p d,
        p <> "/opt/airflow/data/bronze/breweries_raw_20240102_030405.json" ->
        In (p, d) after <-> In (p, d) before).
Proof.
  intros before after.
  apply (ingest_breweries_writes_snapshot
           [[1; 2]; [3]]
           (mkWorld (serve [[1; 2]; [3]; []]) [] "20240102_030405" [] before)).
  - discriminate.
  - intros [|[|[|i]]] p Hp; cbn in Hp; try discriminate;
      injection Hp as <-; (split; [reflexivity | discriminate]).
  - reflexivity.
Defined.

(** An API that serves the same record on every page. *)
Lemma fetch_all_breweries_never_returns_example :
  run fetch_all_breweries (mkWorld (fun _ _ => Ok [7]) [] "20240102_030405" [] [])
  ≈ ITree.spin
  /\ forall r,
       ~ (run fetch_all_breweries
            (mkWorld (fun _ _ => Ok [7]) [] "20240102_030405" [] [])
          ≈ Ret r).
Proof.
  apply (fetch_all_breweries_never_returns
           (mkWorld (fun _ _ => Ok [7]) [] "20240102_030405" [] [])).
  intros p _. exists 7, []. reflexivity.
Defined.

(** ** The silver stage *)

Lemma last_In {A : Type} (l : list A) (d : A) : l <> [] -> In (last l d) l.
Proof.
  induction l as [|x l IH]; intros Hne; [contradiction|].
  destruct l as [|y l]; [now left|].
  right. apply IH. discriminate.
Qed.

(** The last element of a sorted list is its greatest. *)
Lemma last_sorted_greatest {K : Type} (c : K -> K -> comparison)
    {Hc : Order c} (l : list K) (d : K) :
  StronglySorted (fun a b => is_le (c a b) = true) l ->
  forall x, In x l -> is_le (c x (last l d)) = true.
Proof.
  induction 1 as [|y l Hsorted IH Hall]; intros x Hin; [destruct Hin|].
  destruct l as [|z l].
  - destruct Hin as [->|[]]. cbn.
    assert (Heq : c x x = Eq) by now apply order_eq. now rewrite Heq.
  - change (last (y :: z :: l) d) with (last (z :: l) d).
    destruct Hin as [->|Hin]; [|now apply IH].
    rewrite Forall_forall in Hall. apply Hall. apply last_In. discriminate.
Qed.

(** A list has one greatest element at most. *)
Lemma greatest_unique {K : Type} (c : K -> K -> comparison) {Hc : Order c}
    (l : list K) (m m' : K) :
  In m l -> (forall x, In x l -> is_le (c x m) = true) ->
  In m' l -> (forall x, In x l -> is_le (c x m') = true) ->
  m = m'.
Proof.
  intros Hm Hmax Hm' Hmax'.
  specialize (Hmax m' Hm'). specialize (Hmax' m Hm).
  rewrite (order_antisym m' m) in Hmax.
  destruct (c m m') eqn:Hcmp; try discriminate.
  now apply order_eq.
Qed.

Lemma append_assoc (a b c : string) :
  ((a ++ b) ++ c = a ++ (b ++ c))%string.
Proof. induction a as [|x a IH]; cbn; [reflexivity | now rewrite IH]. Qed.

(** [os.path.join] puts the same prefix before every name. *)
Lemma path_join_prefix (dir : string) :
  exists pre, forall name, path_join dir name = (pre ++ name)%string.
Proof.
  destruct dir as [|c dir]; [now exists EmptyString|].
  unfold path_join.
  destruct (String.eqb _ "/").
  - now exists (String c dir).
  - exists (String c dir ++ "/")%string. intros name.
    now rewrite append_assoc.
Qed.

Lemma ascii_compare_refl (c : ascii) : Ascii.compare c c = Eq.
Proof. unfold Ascii.compare. apply N.compare_refl. Qed.

Lemma string_compare_refl (a : string) : String.compare a a = Eq.
Proof.
  induction a as [|c a IH]; cbn; [reflexivity|].
  now rewrite ascii_compare_refl.
Qed.

Lemma compare_app_prefix (a x y : string) :
  String.compare (a ++ x) (a ++ y) = String.compare x y.
Proof.
  induction a as [|c a IH]; cbn; [reflexivity|].
  now rewrite ascii_compare_refl.
Qed.

Lemma compare_app_suffix (b : string) :
  forall x y : string,
    String.length x = String.length y ->
    String.compare (x ++ b) (y ++ b) = String.compare x y.
Proof.
  induction x as [|c x IH]; intros [|d y] Hlen; try discriminate Hlen; cbn.
  - apply string_compare_refl.
  - destruct (Ascii.compare c d); try reflexivity.
    apply IH. now injection Hlen.
Qed.

(** Snapshots of clock readings of one width are ordered as the
    readings are. *)
Lemma snapshot_path_compare (bronze_path t1 t2 : string) :
  String.length t1 = String.length t2 ->
  String.compare (snapshot_path bronze_path t1) (snapshot_path bronze_path t2)
  = String.compare t1 t2.
Proof.
  intros Hlen. unfold snapshot_path.
  destruct (path_join_prefix bronze_path) as [pre Hpre].
  rewrite !Hpre, !compare_app_prefix.
  now apply compare_app_suffix.
Qed.

Section SilverStageFacts.

Context {rt : Runtime}.

(** The snapshot [load_latest_bronze] reads: the greatest of the paths
    found. *)
Lemma load_latest_bronze_greatest (bronze_path latest : string)
    (s : silver_disk) :
  In latest (glob_json s (path_join bronze_path "breweries_raw_*.json")) ->
  (forall p,
     In p (glob_json s (path_join bronze_path "breweries_raw_*.json")) ->
     is_le (String.compare p latest) = true) ->
  load_latest_bronze bronze_path s = (json_at s latest, s).
Proof.
  intros Hin Hmax. unfold load_latest_bronze.
  set (found := glob_json s (path_join bronze_path "breweries_raw_*.json")) in *.
  pose proof (sort_by_perm String.compare found) as Hperm.
  pose proof (sort_by_sorted String.compare (fun p => p) found) as Hsorted.
  change (sort_by (compare_on String.compare (fun p => p)) found)
    with (sort_by String.compare found) in Hsorted.
  destruct (sort_by String.compare found) as [|p files] eqn:Hfiles.
  - apply Permutation_nil in Hperm.
    rewrite Hperm in Hin. destruct Hin.
  - do 2 f_equal.
    apply (greatest_unique String.compare found); try assumption.
    + apply (Permutation_in _ Hperm). apply last_In. discriminate.
    + intros x Hx.
      apply (last_sorted_greatest String.compare (p :: files) EmptyString Hsorted).
      now apply (Permutation_in _ (Permutation_sym Hperm)).
Qed.

Lemma load_latest_bronze_cases (bronze_path : string) (s : silver_disk) :
  (glob_json s (path_join bronze_path "breweries_raw_*.json") = []
   /\ load_latest_bronze bronze_path s
      = (Raise (FileNotFoundError
                  ("No bronze files found at: " ++ bronze_path)%string), s))
  \/ (exists latest,
        In latest (glob_json s (path_join bronze_path "breweries_raw_*.json"))
        /\ (forall p,
              In p (glob_json s (path_join bronze_path "breweries_raw_*.json")) ->
              is_le (String.compare p latest) = true)
        /\ load_latest_bronze bronze_path s = (json_at s latest, s)).
Proof.
  set (found := glob_json s (path_join bronze_path "breweries_raw_*.json")).
  pose proof (sort_by_perm String.compare found) as Hperm.
  pose proof (sort_by_sorted String.compare (fun p => p) found) as Hsorted.
  change (sort_by (compare_on String.compare (fun p => p)) found)
    with (sort_by String.compare found) in Hsorted.
  destruct found as [|p0 found'] eqn:Hfound.
  - left. split; [reflexivity|].
    unfold load_latest_bronze. fold found. now rewrite Hfound.
  - right. rewrite <- Hfound in *.
    assert (Hfiles : sort_by String.compare found <> []).
    { intros Hnil. rewrite Hnil in Hperm.
      apply Permutation_nil in Hperm. rewrite Hperm in Hfound. discriminate. }
    exists (last (sort_by String.compare found) EmptyString).
    assert (Hin : In (last (sort_by String.compare found) EmptyString) found)
      by (apply (Permutation_in _ Hperm); now apply last_In).
    assert (Hmax : forall p, In p found ->
               is_le (String.compare p
                        (last (sort_by String.compare found) EmptyString))
               = true).
    { intros p Hp. apply (last_sorted_greatest String.compare _ _ Hsorted).
      now apply (Permutation_in _ (Permutation_sym Hperm)). }
    split; [exact Hin|]. split; [exact Hmax|].
    now apply load_latest_bronze_greatest.
Qed.

(** [load_latest_bronze] leaves the store as it is.  It raises
    [FileNotFoundError] when no file is found; otherwise its outcome is
    that of reading the greatest path found, in whatever order [glob]
    lists the paths: the records the file holds, or what [open] and
    [json.load] raise on it. *)
Theorem load_latest_bronze_reads_greatest (bronze_path : string)
    (s : silver_disk) :
  snd (load_latest_bronze bronze_path s) = s
  /\ (glob_json s (path_join bronze_path "breweries_raw_*.json") = [] ->
      fst (load_latest_bronze bronze_path s)
      = Raise (FileNotFoundError
                 ("No bronze files found at: " ++ bronze_path)%string))
  /\ (glob_json s (path_join bronze_path "breweries_raw_*.json") <> [] ->
      exists latest,
        In latest (glob_json s (path_join bronze_path "breweries_raw_*.json"))
        /\ (forall p,
              In p (glob_json s (path_join bronze_path "breweries_raw_*.json")) ->
              is_le (String.compare p latest) = true)
        /\ fst (load_latest_bronze bronze_path s) = json_at s latest).
Proof.
  destruct (load_latest_bronze_cases bronze_path s)
    as [[Hnone Hload]|[latest [Hin [Hmax Hload]]]]; rewrite Hload; cbn [fst snd].
  - split; [reflexivity|]. split; [reflexivity | contradiction].
  - split; [reflexivity|]. split.
    + intros Hnone. rewrite Hnone in Hin. destruct Hin.
    + intros _. exists latest. now repeat split.
Qed.

(** The ways [transform_breweries] ends. *)
Lemma transform_breweries_cases (s : silver_disk) :
  (glob_json s "/opt/airflow/data/bronze/breweries_raw_*.json" = []
   /\ transform_breweries s
      = (Raise (FileNotFoundError
                  "No bronze files found at: /opt/airflow/data/bronze"), s))
  \/ exists latest,
       latest_snapshot s latest
       /\ ((exists e,
              json_at s latest = Raise e
              /\ transform_breweries s = (Raise e, s))
           \/ (json_at s latest = Ok []
               /\ transform_breweries s
                  = (Raise (ValueError
                       "Bronze layer returned empty data. Aborting transformation."),
                     s))
           \/ exists data,
                json_at s latest = Ok data
                /\ data <> []
                /\ ((exists e,
                       clean_and_transform data = Raise e
                       /\ transform_breweries s = (Raise e, s))
                    \/ exists df,
                         clean_and_transform data = Ok df
                         /\ ((exists e,
                                arrow_refuses s df = Some e
                                /\ transform_breweries s
                                   = (Raise e, with_silver_dir s))
                             \/ (arrow_refuses s df = None
                                 /\ exists c rest,
                                      missing_labels ["country"; "state"]
                                                     (columns df)
                                      = c :: rest
                                      /\ transform_breweries s
                                         = (Raise (KeyError [c]),
                                            with_silver_dir s))
                             \/ (arrow_refuses s df = None
                                 /\ missing_labels ["country"; "state"]
                                                   (columns df) = []
                                 /\ transform_breweries s
                                    = (Ok SILVER_PATH,
                                       mkSilverDisk (glob_json s) (json_at s)
                                         (arrow_refuses s)
                                         (SILVER_PATH :: made s)
                                         ((SILVER_PATH, ["country"; "state"], df)
                                            :: datasets s)))))).
Proof.
  unfold transform_breweries, stage_bind, latest_snapshot.
  destruct (load_latest_bronze_cases BRONZE_PATH s)
    as [[Hnone Hload]|[latest [Hin [Hmax Hload]]]]; rewrite Hload.
  - left. split; [exact Hnone | reflexivity].
  - right. exists latest. split; [split; [exact Hin | exact Hmax]|].
    destruct (json_at s latest) as [[|r data]|e] eqn:Hdata.
    + right. left. split; reflexivity.
    + right. right. exists (r :: data).
      split; [reflexivity|]. split; [discriminate|].
      unfold stage_lift.
      destruct (clean_and_transform (r :: data)) as [df|e] eqn:Hclean.
      * right. exists df. split; [reflexivity|].
        unfold save_to_silver.
        cbn [arrow_refuses glob_json json_at made datasets].
        destruct (arrow_refuses s df) as [e|] eqn:Harrow.
        -- left. exists e. now split.
        -- right.
           destruct (missing_labels ["country"; "state"] (columns df))
             as [|c rest] eqn:Hmiss.
           ++ right. now repeat split.
           ++ left. split; [reflexivity|]. exists c, rest. now split.
      * left. exists e. now split.
    + left. exists e. now split.
Qed.

(** When [transform_breweries] returns, it returns the silver path, and
    has written one dataset there, partitioned by country and state: the
    cleaned frame of the greatest snapshot, which held a record, and
    which has a country and a state column. *)
Theorem transform_breweries_writes_cleaned_latest (s : silver_disk) (p : string) :
  fst (transform_breweries s) = Ok p ->
  p = SILVER_PATH
  /\ exists latest data df,
       latest_snapshot s latest
       /\ json_at s latest = Ok data
       /\ data <> []
       /\ clean_and_transform data = Ok df
       /\ In "country" (columns df)
       /\ In "state" (columns df)
       /\ datasets (snd (transform_breweries s))
          = (SILVER_PATH, ["country"; "state"], df) :: datasets s.
Proof.
  intros Hok.
  destruct (transform_breweries_cases s)
    as [[_ Hrun]|[latest [Hlatest Hcases]]];
    [rewrite Hrun in Hok; discriminate|].
  destruct Hcases as [[e [_ Hrun]]|[[_ Hrun]|[data [Hdata [Hne Hcases]]]]];
    try (rewrite Hrun in Hok; discriminate).
  destruct Hcases as [[e [_ Hrun]]|[df [Hclean Hcases]]];
    [rewrite Hrun in Hok; discriminate|].
  destruct Hcases
    as [[e [_ Hrun]]|[[_ [c [rest [_ Hrun]]]]|[_ [Hcols Hrun]]]];
    try (rewrite Hrun in Hok; discriminate).
  rewrite Hrun in *. cbn [fst snd datasets] in *.
  split; [congruence|]. exists latest, data, df.
  rewrite missing_labels_nil in Hcols.
  repeat split; try assumption; try apply Hcols; cbn; auto.
  now destruct Hlatest. now destruct Hlatest.
Qed.

(** A snapshot whose records carry no country cannot be written: the
    cleaning returns a frame without the partition column, and
    [transform_breweries] raises the [KeyError] of the write, after it
    has made the silver directory.  No dataset is written. *)
Theorem transform_breweries_requires_country
    (s : silver_disk) (latest : string) (data : list record) (df : DataFrame) :
  latest_snapshot s latest ->
  json_at s latest = Ok data ->
  data <> [] ->
  names_of data "country" = [] ->
  clean_and_transform data = Ok df ->
  arrow_refuses s df = None ->
  transform_breweries s = (Raise (KeyError ["country"]), with_silver_dir s).
Proof.
  intros [Hin Hmax] Hdata Hne Hcountry Hclean Harrow.
  assert (Hcols : mem "country" (columns df) = false).
  { apply not_true_is_false. intros Hmem. apply mem_In in Hmem.
    destruct (empty (frame_of_records data)) eqn:Hempty.
    - unfold clean_and_transform in Hclean. rewrite Hempty in Hclean.
      injection Hclean as <-.
      apply empty_frame_of_records in Hempty.
      destruct Hempty as [->|Hall]; [contradiction|].
      unfold frame_of_records in Hmem. cbn [columns] in Hmem.
      apply In_first_seen in Hmem. destruct Hmem as [Hmem _].
      apply in_flat_map in Hmem. destruct Hmem as [r [Hr Hk]].
      rewrite (Hall r Hr) in Hk. destruct Hk.
    - destruct (clean_and_transform_Ok data df Hempty Hclean) as [-> _].
      cbn [columns] in Hmem. apply labels_of_named in Hmem. contradiction. }
  unfold transform_breweries, stage_bind.
  rewrite (load_latest_bronze_greatest BRONZE_PATH latest s Hin Hmax), Hdata.
  destruct data as [|r data]; [contradiction|].
  unfold stage_lift. rewrite Hclean.
  unfold save_to_silver. cbn [arrow_refuses glob_json json_at made datasets].
  rewrite Harrow. unfold missing_labels. cbn [filter]. rewrite Hcols.
  reflexivity.
Qed.

(** A greatest snapshot that the cleaning refuses makes
    [transform_breweries] raise what the cleaning raises, before
    [save_to_silver] is called: no directory is made, nothing is written. *)
Theorem transform_breweries_propagates_cleaning_failure
    (s : silver_disk) (latest : string) (data : list record) (e : exn) :
  latest_snapshot s latest ->
  json_at s latest = Ok data ->
  clean_and_transform data = Raise e ->
  transform_breweries s = (Raise e, s).
Proof.
  intros [Hin Hmax] Hdata Hclean.
  unfold transform_breweries, stage_bind.
  rewrite (load_latest_bronze_greatest BRONZE_PATH latest s Hin Hmax), Hdata.
  destruct data as [|r data]; [discriminate Hclean|].
  unfold stage_lift. now rewrite Hclean.
Qed.

(** A greatest snapshot that holds no record is refused with a
    [ValueError], before the cleaning: the store is left as it is,
    whatever the older snapshots hold. *)
Theorem transform_breweries_refuses_empty_snapshot
    (s : silver_disk) (latest : string) :
  latest_snapshot s latest ->
  json_at s latest = Ok [] ->
  transform_breweries s
  = (Raise (ValueError
       "Bronze layer returned empty data. Aborting transformation."), s).
Proof.
  intros [Hin Hmax] Hempty.
  unfold transform_breweries, stage_bind.
  rewrite (load_latest_bronze_greatest BRONZE_PATH latest s Hin Hmax).
  now rewrite Hempty.
Qed.

(** Among snapshots that carry the names [save_to_bronze] gives them,
    for clock readings of one width, [load_latest_bronze] reads the one
    of the greatest reading, in whatever order [glob] lists them. *)
Theorem load_latest_bronze_latest_timestamp
    (bronze_path : string) (s : silver_disk)
    (stamps : list string) (latest : string) :
  glob_json s (path_join bronze_path "breweries_raw_*.json")
  = map (snapshot_path bronze_path) stamps ->
  In latest stamps ->
  (forall t,
     In t stamps ->
     String.length t = String.length latest
     /\ is_le (String.compare t latest) = true) ->
  load_latest_bronze bronze_path s
  = (json_at s (snapshot_path bronze_path latest), s).
Proof.
  intros Hfound Hin Hmax.
  apply load_latest_bronze_greatest; rewrite Hfound.
  - now apply in_map.
  - intros p Hp. apply in_map_iff in Hp. destruct Hp as [t [<- Ht]].
    destruct (Hmax t Ht) as [Hlen Hle].
    now rewrite snapshot_path_compare.
Qed.

End SilverStageFacts.

(** *** The silver stage on examples *)

Lemma sample_disk_latest :
  latest_snapshot sample_disk
    "/opt/airflow/data/bronze/breweries_raw_20240103_000000.json".
Proof.
  split.
  - cbn. auto.
  - intros p Hp. cbn in Hp.
    destruct Hp as [<-|[<-|[<-|[]]]]; reflexivity.
Qed.

Lemma transform_breweries_writes_cleaned_latest_example :
  fst (transform_breweries located_disk) = Ok SILVER_PATH
  /\ SILVER_PATH = SILVER_PATH
  /\ exists latest data df,
       latest_snapshot located_disk latest
       /\ json_at located_disk latest = Ok data
       /\ data <> []
       /\ clean_and_transform data = Ok df
       /\ In "country" (columns df)
       /\ In "state" (columns df)
       /\ datasets (snd (transform_breweries located_disk))
          = (SILVER_PATH, ["country"; "state"], df) :: datasets located_disk.
Proof.
  split; [reflexivity|].
  apply (@transform_breweries_writes_cleaned_latest ascii_runtime
           located_disk SILVER_PATH).
  reflexivity.
Defined.

(** The records of the tests, cleaned and written. *)
Lemma transform_breweries_located :
  @clean_and_transform ascii_runtime located_records = Ok located_cleaned
  /\ transform_breweries located_disk
     = (Ok SILVER_PATH,
        mkSilverDisk (glob_json located_disk) (json_at located_disk)
                     (arrow_refuses located_disk) [SILVER_PATH]
                     [(SILVER_PATH, ["country"; "state"], located_cleaned)]).
Proof. split; reflexivity. Qed.

(** The sample records have no country. *)
Lemma transform_breweries_requires_country_example :
  transform_breweries sample_disk
  = (Raise (KeyError ["country"]), with_silver_dir sample_disk).
Proof.
  apply (@transform_breweries_requires_country ascii_runtime sample_disk
           "/opt/airflow/data/bronze/breweries_raw_20240103_000000.json"
           sample_records sample_cleaned).
  - exact sample_disk_latest.
  - reflexivity.
  - discriminate.
  - reflexivity.
  - reflexivity.
  - reflexivity.
Defined.

Lemma transform_breweries_propagates_cleaning_failure_example :
  transform_breweries untyped_disk
  = (Raise (KeyError ["brewery_type"]), untyped_disk).
Proof.
  apply (@transform_breweries_propagates_cleaning_failure ascii_runtime
           untyped_disk
           "/opt/airflow/data/bronze/breweries_raw_20240103_000000.json"
           untyped_records).
  - exact sample_disk_latest.
  - reflexivity.
  - reflexivity.
Defined.

Lemma load_latest_bronze_latest_timestamp_example :
  load_latest_bronze "/opt/airflow/data/bronze" sample_disk
  = (Ok sample_records, sample_disk).
Proof.
  apply (@load_latest_bronze_latest_timestamp ascii_runtime
           "/opt/airflow/data/bronze" sample_disk
           ["20240102_030405"; "20240103_000000"; "20231231_235959"]
           "20240103_000000").
  - reflexivity.
  - cbn. auto.
  - intros t Ht. cbn in Ht.
    destruct Ht as [<-|[<-|[<-|[]]]]; split; reflexivity.
Defined.

Lemma transform_breweries_refuses_empty_snapshot_example :
  transform_breweries stale_disk
  = (Raise (ValueError
       "Bronze layer returned empty data. Aborting transformation."),
     stale_disk).
Proof.
  apply (@transform_breweries_refuses_empty_snapshot ascii_runtime stale_disk
           "/opt/airflow/data/bronze/breweries_raw_20240103_000000.json").
  - exact sample_disk_latest.
  - reflexivity.
Defined.

(** ** The gold stage *)

Lemma cast_categorical_length (f : option string -> option string)
    (df : silver_read) :
  List.length (cast_categorical f df) = List.length (read_rows df).
Proof.
  unfold cast_categorical. cbn [fold_left].
  destruct (categorical df "country"), (categorical df "state"),
    (categorical df "brewery_type"); now rewrite ?length_map.
Qed.

Lemma set_column_id (col : string) (f : option string -> option string)
    (r : silver_row) :
  row_id (set_column col f r) = row_id r.
Proof.
  unfold set_column.
  destruct (String.eqb col "country"); [reflexivity|].
  destruct (String.eqb col "state"); [reflexivity|].
  now destruct (String.eqb col "brewery_type").
Qed.

(** The four ways [load_silver] ends; the store is left as it is. *)
Lemma load_silver_cases (silver_path : string) (s : gold_disk) :
  (path_exists s silver_path = false
   /\ load_silver silver_path s
      = (Raise (FileNotFoundError
                  ("Silver path not found: " ++ silver_path)%string), s))
  \/ (path_exists s silver_path = true
      /\ glob_parquet s (path_join silver_path "**/*.parquet") = []
      /\ load_silver silver_path s
         = (Raise (FileNotFoundError
                     ("No Parquet files found in silver path: "
                        ++ silver_path)%string), s))
  \/ (path_exists s silver_path = true
      /\ glob_parquet s (path_join silver_path "**/*.parquet") <> []
      /\ exists e,
           read_parquet s (glob_parquet s (path_join silver_path "**/*.parquet"))
           = Raise e
           /\ load_silver silver_path s = (Raise e, s))
  \/ (path_exists s silver_path = true
      /\ glob_parquet s (path_join silver_path "**/*.parquet") <> []
      /\ exists read,
           read_parquet s (glob_parquet s (path_join silver_path "**/*.parquet"))
           = Ok read
           /\ load_silver silver_path s
              = (Ok (cast_categorical (astype_str s) read), s)).
Proof.
  unfold load_silver. destruct (path_exists s silver_path).
  - right. cbn [negb].
    destruct (glob_parquet s (path_join silver_path "**/*.parquet")) eqn:Hfound.
    + left. now repeat split.
    + right.
      destruct (read_parquet s (s0 :: l)) as [read|e] eqn:Hread.
      * right. split; [reflexivity|]. split; [discriminate|].
        exists read. now split.
      * left. split; [reflexivity|]. split; [discriminate|].
        exists e. now split.
  - left. now split.
Qed.

(** [load_silver] writes nothing.  It raises exactly when the path does
    not exist, or no file is found under it (a [FileNotFoundError] in
    both cases), or [pd.read_parquet] raises on the files found (its
    exception goes through).  Otherwise it returns the rows read, one
    for one and in their order: the id is kept, and so is every grouping
    cell of a column that is not categorical; a cell of a categorical
    column went through [astype(str)] once. *)
Theorem load_silver_outcome (silver_path : string) (s : gold_disk) :
  let found := glob_parquet s (path_join silver_path "**/*.parquet") in
  snd (load_silver silver_path s) = s
  /\ (raises (fst (load_silver silver_path s)) = true
      <-> path_exists s silver_path = false
          \/ found = []
          \/ raises (read_parquet s found) = true)
  /\ (forall e,
        fst (load_silver silver_path s) = Raise e ->
        (exists msg, e = FileNotFoundError msg)
        \/ read_parquet s found = Raise e)
  /\ (forall df,
        fst (load_silver silver_path s) = Ok df ->
        exists read,
          read_parquet s found = Ok read
          /\ df = map (fun r =>
                         let cast col cell :=
                           if categorical read col then astype_str s cell
                           else cell in
                         mkSilver (row_id r)
                                  (cast "brewery_type" (row_brewery_type r))
                                  (cast "country" (row_country r))
                                  (cast "state" (row_state r)))
                      (read_rows read)).
Proof.
  intros found. subst found.
  destruct (load_silver_cases silver_path s)
    as [[Hex Hload]|[[Hex [Hnone Hload]]
        |[[Hex [Hsome [e [Hread Hload]]]]|[Hex [Hsome [read [Hread Hload]]]]]]];
    rewrite Hload; cbn [fst snd raises].
  - split; [reflexivity|]. split; [tauto|]. split.
    + intros e He. left. eexists. injection He as <-. reflexivity.
    + intros df H. discriminate.
  - split; [reflexivity|]. split; [tauto|]. split.
    + intros e He. left. eexists. injection He as <-. reflexivity.
    + intros df H. discriminate.
  - split; [reflexivity|]. split; [|split].
    + rewrite Hread. cbn [raises]. tauto.
    + intros e' He. right. congruence.
    + intros df H. discriminate.
  - split; [reflexivity|]. split; [|split].
    + rewrite Hread. cbn [raises]. split; [discriminate|].
      intros [H|[H|H]]; [congruence | contradiction | discriminate].
    + intros e He. discriminate.
    + intros df Hdf. injection Hdf as <-. exists read. split; [assumption|].
      unfold cast_categorical. cbn [fold_left].
      destruct (categorical read "country"), (categorical read "state"),
        (categorical read "brewery_type");
        rewrite ?map_map;
        try (apply map_ext; intros [i b c st]; reflexivity).
      rewrite <- (map_id (read_rows read)) at 1.
      apply map_ext. intros [i b c st]. reflexivity.
Qed.

(** The store after [aggregate_gold] has written its artifact. *)
Lemma aggregate_gold_Ok (s : gold_disk) (df : list silver_row) :
  load_silver SILVER_PATH s = (Ok df, s) ->
  df <> [] ->
  aggregate_gold s
  = (Ok gold_file,
     mkGoldDisk (path_exists s) (glob_parquet s) (read_parquet s) (astype_str s)
                (GOLD_PATH :: gold_made s)
                (write_file (gold_files s) gold_file
                   (sort_by compare_sort_values (groupby_count df)))).
Proof.
  intros Hload Hne. unfold aggregate_gold, stage_bind. rewrite Hload.
  destruct df as [|r df]; [contradiction|]. reflexivity.
Qed.


(** [aggregate_gold] raises exactly when the silver path does not
    exist, or no parquet file is found under it, or the files found are
    not read, or the frame read from them has no row; it then leaves the
    store, and with it the artifact of an earlier run, as it was. *)
Theorem aggregate_gold_raises (s : gold_disk) :
  (raises (fst (aggregate_gold s)) = true
   <-> path_exists s SILVER_PATH = false
       \/ glob_parquet s "/opt/airflow/data/silver/**/*.parquet" = []
       \/ (exists e,
             read_parquet s
               (glob_parquet s "/opt/airflow/data/silver/**/*.parquet")
             = Raise e)
       \/ (exists read,
             read_parquet s
               (glob_parquet s "/opt/airflow/data/silver/**/*.parquet")
             = Ok read
             /\ read_rows read = []))
  /\ (raises (fst (aggregate_gold s)) = true -> snd (aggregate_gold s) = s).
Proof.
  destruct (load_silver_cases SILVER_PATH s)
    as [[Hex Hload]|[[Hex [Hnone Hload]]
        |[[Hex [Hsome [e [Hread Hload]]]]|[Hex [Hsome [read [Hread Hload]]]]]]].
  - unfold aggregate_gold, stage_bind. rewrite Hload. cbn [fst snd raises].
    split; [|reflexivity]. split; [now left | reflexivity].
  - unfold aggregate_gold, stage_bind. rewrite Hload. cbn [fst snd raises].
    split; [|reflexivity]. split; [intros _; right; left; exact Hnone | reflexivity].
  - unfold aggregate_gold, stage_bind. rewrite Hload. cbn [fst snd raises].
    split; [|reflexivity]. split; [|reflexivity].
    intros _. right. right. left. now exists e.
  - change (path_join SILVER_PATH "**/*.parquet")
      with "/opt/airflow/data/silver/**/*.parquet" in *.
    set (found := glob_parquet s "/opt/airflow/data/silver/**/*.parquet") in *.
    pose proof (cast_categorical_length (astype_str s) read) as Hlen.
    destruct (cast_categorical (astype_str s) read) as [|r df] eqn:Hcast.
    + unfold aggregate_gold, stage_bind. rewrite Hload.
      cbn [stage_lift aggregate_breweries fst snd raises].
      split; [|reflexivity]. split; [|reflexivity].
      intros _. right. right. right. exists read. split; [assumption|].
      cbn in Hlen. symmetry in Hlen. now apply length_zero_iff_nil in Hlen.
    + rewrite (aggregate_gold_Ok s (r :: df) Hload) by discriminate.
      cbn [fst snd raises]. split; [|discriminate].
      split; [discriminate|].
      intros [H|[H|[[e H]|[read' [H Hrows]]]]];
        [congruence | contradiction | congruence |].
      assert (read' = read) by congruence. subst read'.
      rewrite Hrows in Hlen. discriminate Hlen.
Qed.

(** When [aggregate_gold] returns, it returns the path of the artifact,
    which now holds the aggregate of the frame loaded; no other file is
    touched. *)
Theorem aggregate_gold_writes_artifact (s : gold_disk) (p : string) :
  fst (aggregate_gold s) = Ok p ->
  p = gold_file
  /\ exists df agg,
       fst (load_silver SILVER_PATH s) = Ok df
       /\ aggregate_breweries df = Ok agg
       /\ gold_files (snd (aggregate_gold s)) gold_file
          = Some (Ok (gold_rows agg))
       /\ forall q,
            q <> gold_file ->
            gold_files (snd (aggregate_gold s)) q = gold_files s q.
Proof.
  intros Hok.
  destruct (load_silver_cases SILVER_PATH s)
    as [[Hex Hload]|[[Hex [Hnone Hload]]
        |[[Hex [Hsome [e [Hread Hload]]]]|[Hex [Hsome [read [Hread Hload]]]]]]].
  - unfold aggregate_gold, stage_bind in Hok. rewrite Hload in Hok. discriminate.
  - unfold aggregate_gold, stage_bind in Hok. rewrite Hload in Hok. discriminate.
  - unfold aggregate_gold, stage_bind in Hok. rewrite Hload in Hok. discriminate.
  - destruct (cast_categorical _ _) as [|r df] eqn:Hcast.
    + unfold aggregate_gold, stage_bind in Hok. rewrite Hload in Hok.
      discriminate.
    + rewrite (aggregate_gold_Ok s (r :: df) Hload) in * by discriminate.
      cbn [fst snd gold_files] in *. split; [congruence|].
      exists (r :: df), (mkGoldFrame (by_columns ++ ["brewery_count"])
                           (sort_by compare_sort_values (groupby_count (r :: df)))).
      rewrite Hload. cbn [fst gold_rows]. split; [reflexivity|].
      split; [reflexivity|]. unfold write_file. split.
      * now rewrite String.eqb_refl.
      * intros q Hq. apply String.eqb_neq in Hq. now rewrite Hq.
Qed.



(** *** The gold stage on examples *)

Lemma aggregate_gold_writes_artifact_example :
  fst (aggregate_gold sample_gold_disk) = Ok gold_file
  /\ gold_file = gold_file
  /\ exists df agg,
       fst (load_silver SILVER_PATH sample_gold_disk) = Ok df
       /\ aggregate_breweries df = Ok agg
       /\ gold_files (snd (aggregate_gold sample_gold_disk)) gold_file
          = Some (Ok (gold_rows agg))
       /\ forall q,
            q <> gold_file ->
            gold_files (snd (aggregate_gold sample_gold_disk)) q
            = gold_files sample_gold_disk q.
Proof.
  split; [reflexivity|].
  apply (aggregate_gold_writes_artifact sample_gold_disk gold_file).
  reflexivity.
Defined.

